(** * GBP ranking map: grid generation and rank aggregation

    A shallow embedding of the two generators of the repository,

      - [src/generate_analysis.py]            (module [Script]),
      - [src/generator/generate_analysis.py]  (module [Generator]),

    and the properties of the grid and of the aggregation that the
    specification states about them.

    Conventions of the embedding.

    - Python [int] is [Z].  [math.floor (math.sqrt n)] is [Z.sqrt n] and
      [math.ceil (n / rows)] is the exact ceiling of the quotient: the
      doubles involved are exact for every point count below [2^52].
    - Python [float] is an abstract type [F] with the operations the code
      applies to it ([FloatOps]); nothing is assumed about them.
    - A raised exception is the left injection of [py A = pyexn + A].
    - A [dict] whose order is observable ([all_businesses], listed through
      [.values()]) is an association list in insertion order; a [dict]
      that is only looked up and compared ([rankings]) is a [gmap].
    - The ranking provider is outside the program: the outcome of the
      [k]-th request of a run is an input, [api k]. *)

From Stdlib Require Import ZArith QArith Qround Lia Ascii.
From stdpp Require Import gmap strings list fin_maps.

Local Open Scope Z_scope.

(** ** Python exceptions *)

Inductive pyexn :=
| ZeroDivisionError   (* division by zero *)
| ValueError          (* math domain error *)
| AttributeError      (* 'NoneType' object has no attribute 'get' *)
| TypeError           (* 'NoneType' object is not iterable *)
| RequestException.   (* requests: connection error, HTTP error status, bad body *)

Abbreviation py A := (pyexn + A)%type.

(** Sequencing of computations that may raise: [x ← m; k]. *)
#[global] Instance py_bind : MBind (sum pyexn) := λ A B k m,
  match m with
  | inl e => inl e
  | inr a => k a
  end.

(** [range n] of Python, for an [int] argument. *)
Definition range (n : Z) : list Z := Z.of_nat <$> seq 0 (Z.to_nat n).

(** ** Floating point interface *)

Class FloatOps (F : Type) := {
  f_of_int : Z → F;          (* int -> float conversion in mixed arithmetic *)
  f_add : F → F → F;
  f_mul : F → F → F;
  f_div : F → F → F;
  f_pi : F;                  (* math.pi *)
  f_radians : F → F;         (* math.radians *)
  f_cos : F → F;             (* math.cos *)
  f_round6 : F → F           (* round(x, 6) *)
}.

(** ** Data model *)

Record GridPoint (F : Type) := mkGridPoint {
  gp_id : Z;
  gp_lat : F;
  gp_lon : F
}.
Arguments mkGridPoint {F} _ _ _.
Arguments gp_id {F} _.
Arguments gp_lat {F} _.
Arguments gp_lon {F} _.

(** ** Grid generation, common part

    [calculate_grid_dimensions] is the same computation in both files. *)

Definition math_sqrt_floor (n : Z) : py Z :=
  if n <? 0 then inl ValueError else inr (Z.sqrt n).

Definition math_ceil_div (n rows : Z) : py Z :=
  if rows =? 0 then inl ZeroDivisionError else inr (- ((- n) / rows)).

Definition calculate_grid_dimensions (num_points : Z) : py (Z * Z) :=
  rows ← math_sqrt_floor num_points;
  cols ← math_ceil_div num_points rows;
  inr (rows, cols).

Section Grid.
Context {F : Type} `{!FloatOps F}.

Section Loops.
(** The two nested [for] loops with their [break]s; [cos_lat] is the
    divisor of the longitude step, the only place where the two files
    are written differently. *)
Variables (center_lat center_lon : F) (num_points : Z).
Variables (offset start_row start_col cos_lat : F).

Definition cell_lat (i : Z) : F :=
  f_add center_lat (f_mul (f_add start_row (f_of_int i)) offset).

Definition cell_lon (j : Z) : F :=
  f_add center_lon
    (f_div (f_mul (f_add start_col (f_of_int j)) offset) cos_lat).

Definition cell_point (point_count i j : Z) : GridPoint F :=
  {| gp_id := point_count;
     gp_lat := f_round6 (cell_lat i);
     gp_lon := f_round6 (cell_lon j) |}.

Fixpoint cols_loop (i : Z) (js : list Z) (st : list (GridPoint F) * Z)
  : list (GridPoint F) * Z :=
  match js with
  | [] => st
  | j :: js' =>
      let '(points, point_count) := st in
      if num_points <=? point_count then st (* break *)
      else cols_loop i js'
             (points ++ [cell_point point_count i j], point_count + 1)
  end.

Fixpoint rows_loop (cols : Z) (rs : list Z) (st : list (GridPoint F) * Z)
  : list (GridPoint F) * Z :=
  match rs with
  | [] => st
  | i :: rs' =>
      if num_points <=? st.2 then st (* break *)
      else rows_loop cols rs' (cols_loop i (range cols) st)
  end.
End Loops.

Definition grid_offset (distance_km : F) : F := f_div distance_km (f_of_int 111).

Definition grid_start (extent : Z) : F :=
  f_div (f_of_int (- (extent - 1))) (f_of_int 2).

Definition grid_points_with (cos_lat : F) (center_lat center_lon : F)
    (num_points : Z) (distance_km : F) : py (list (GridPoint F)) :=
  '(rows, cols) ← calculate_grid_dimensions num_points;
  let offset := grid_offset distance_km in
  let start_row := grid_start rows in
  let start_col := grid_start cols in
  inr (rows_loop center_lat center_lon num_points offset start_row start_col
         cos_lat cols (range rows) ([], 0)).1.
End Grid.

(** ** Provider entries and fetch outcomes *)

(** The [rating] object of an entry. *)
Record rating_obj (F : Type) := mkRating {
  rating_value : option F;
  rating_votes_count : option Z
}.
Arguments mkRating {F} _ _.
Arguments rating_value {F} _.
Arguments rating_votes_count {F} _.

(** The ['rating'] key of an entry: missing, JSON [null], or an object. *)
Inductive rating_field (F : Type) :=
| RatingAbsent
| RatingNull
| RatingObject (r : rating_obj F).
Arguments RatingAbsent {F}.
Arguments RatingNull {F}.
Arguments RatingObject {F} _.

(** One entry of the provider's result list.  [None] is a missing key or
    JSON [null], which [dict.get] does not tell apart. *)
Record item (F : Type) := mkItem {
  place_id : option string;
  cid : option string;
  title : option string;
  address : option string;
  rating : rating_field F
}.
Arguments mkItem {F} _ _ _ _ _.
Arguments place_id {F} _.
Arguments cid {F} _.
Arguments title {F} _.
Arguments address {F} _.
Arguments rating {F} _.

(** The decoded body of a response, as far as the code inspects it. *)
Inductive payload (F : Type) :=
| NoTasks                       (* data.get('tasks') is falsy *)
| NoResult                      (* data['tasks'][0].get('result') is falsy *)
| ItemsAbsent                   (* result[0] has no 'items' key *)
| ItemsNull                     (* result[0]['items'] is null *)
| Items (items : list (item F)).
Arguments NoTasks {F}.
Arguments NoResult {F}.
Arguments ItemsAbsent {F}.
Arguments ItemsNull {F}.
Arguments Items {F} _.

(** What [requests.post], [raise_for_status] and [response.json] give. *)
Inductive fetch_outcome (F : Type) :=
| FetchFailed                   (* one of the three raised *)
| FetchJson (data : payload F).
Arguments FetchFailed {F}.
Arguments FetchJson {F} _.

(** Calls that leave the process, in the order they are made. *)
Inductive event (F : Type) :=
| EvFetch (lat lon : F) (keyword : string)
| EvDbInsertAnalysis (rows cols : Z)
| EvDbMarkFailed (e : pyexn) (api_calls : Z).
Arguments EvFetch {F} _ _ _.
Arguments EvDbInsertAnalysis {F} _ _.
Arguments EvDbMarkFailed {F} _ _.

(** An element of the report's ['businesses'] list. *)
Record Business (F : Type) := mkBusiness {
  biz_id : string;
  biz_title : option string;
  biz_address : option string;
  biz_rating : option F;
  biz_reviews : option Z
}.
Arguments mkBusiness {F} _ _ _ _ _.
Arguments biz_id {F} _.
Arguments biz_title {F} _.
Arguments biz_address {F} _.
Arguments biz_rating {F} _.
Arguments biz_reviews {F} _.

(** The part of the report the two files share: ['grid_points'],
    ['businesses'] (the values of [all_businesses], in insertion order)
    and ['rankings'].  The metadata echoes the arguments. *)
Record report (F : Type) := mkReport {
  grid_points : list (GridPoint F);
  businesses : list (Business F);
  rankings : gmap string (gmap Z Z)
}.
Arguments mkReport {F} _ _ _.
Arguments grid_points {F} _.
Arguments businesses {F} _.
Arguments rankings {F} _.

(** ** Entry processing, common part *)

(** Truthiness of an identifier: [Some s] when the value is a non-empty
    string, [None] when it is missing, [null] or empty. *)
Definition usable_id (v : option string) : option string :=
  match v with
  | Some s => if decide (s = EmptyString) then None else Some s
  | None => None
  end.

(** [a or b]. *)
Definition py_or (a b : option string) : option string :=
  match usable_id a with
  | Some _ => a
  | None => b
  end.

(** [item.get('place_id') or item.get('cid')], then [if not biz_id]. *)
Definition item_biz_id {F} (it : item F) : option string :=
  usable_id (py_or (place_id it) (cid it)).

(** [item.get('rating', {}).get(key)]. *)
Definition rating_get {F X} (key : rating_obj F → option X) (r : rating_field F)
  : py (option X) :=
  match r with
  | RatingAbsent => inr None
  | RatingNull => inl AttributeError
  | RatingObject o => inr (key o)
  end.

(** The dictionary stored for a business seen for the first time. *)
Definition mk_business {F} (b : string) (it : item F) : py (Business F) :=
  value ← rating_get rating_value (rating it);
  votes ← rating_get rating_votes_count (rating it);
  inr (mkBusiness b (title it) (address it) value votes).

(** [d[k][p] = v], after [if k not in d: d[k] = {}]. *)
Definition store_ranking (biz : string) (point_id position : Z)
    (d : gmap string (gmap Z Z)) : gmap string (gmap Z Z) :=
  <[biz := <[point_id := position]> (default ∅ (d !! biz))]> d.

(** [enumerate], from a given start. *)
Fixpoint enumerate_from {A} (index : Z) (l : list A) : list (Z * A) :=
  match l with
  | [] => []
  | x :: l' => (index, x) :: enumerate_from (index + 1) l'
  end.

(** ** src/generate_analysis.py *)

Module Script.
Section Script.
Context {F : Type} `{!FloatOps F}.

Definition generate_grid_points (center_lat center_lon : F) (num_points : Z)
    (distance_km : F) : py (list (GridPoint F)) :=
  grid_points_with (f_cos (f_radians center_lat))
    center_lat center_lon num_points distance_km.

(** The body of the [try]: [None] from the [except] branch or from an
    ['items'] that is [null]; otherwise the list to iterate. *)
Definition call_dataforseo_api (o : fetch_outcome F) : option (list (item F)) :=
  match o with
  | FetchFailed => None
  | FetchJson NoTasks => Some []
  | FetchJson NoResult => Some []
  | FetchJson ItemsAbsent => Some []
  | FetchJson ItemsNull => None
  | FetchJson (Items items) => Some items
  end.

Record agg_state := mkState {
  all_businesses : list (string * Business F);
  ranking_data : gmap string (gmap Z Z)
}.

(** [if biz_id not in all_businesses: all_businesses[biz_id] = {...}] *)
Definition store_business (b : string) (it : item F)
    (d : list (string * Business F)) : py (list (string * Business F)) :=
  if decide (b ∈ d.*1) then inr d
  else r ← mk_business b it; inr (d ++ [(b, r)]).

Definition item_step (point_id index : Z) (it : item F) (st : agg_state)
  : py agg_state :=
  match item_biz_id it with
  | None => inr st (* continue *)
  | Some b =>
      d ← store_business b it (all_businesses st);
      inr {| all_businesses := d;
             ranking_data :=
               store_ranking b point_id (index + 1) (ranking_data st) |}
  end.

Fixpoint items_loop (point_id : Z) (items : list (Z * item F)) (st : agg_state)
  : py agg_state :=
  match items with
  | [] => inr st
  | (index, it) :: rest =>
      st' ← item_step point_id index it st;
      items_loop point_id rest st'
  end.

(** [for i, point in enumerate(grid_points)], each point paired with the
    outcome of its request. *)
Fixpoint points_loop (keyword : string)
    (pts : list (GridPoint F * fetch_outcome F))
    (st : agg_state) (tr : list (event F)) : list (event F) * py agg_state :=
  match pts with
  | [] => (tr, inr st)
  | (point, o) :: rest =>
      let tr := tr ++ [EvFetch (gp_lat point) (gp_lon point) keyword] in
      match call_dataforseo_api o with
      | None => points_loop keyword rest st tr (* continue *)
      | Some items =>
          match items_loop (gp_id point) (enumerate_from 0 items) st with
          | inl e => (tr, inl e)
          | inr st' => points_loop keyword rest st' tr
          end
      end
  end.

Definition generate_analysis (api : nat → fetch_outcome F)
    (center_lat center_lon : F) (keyword : string) (num_points : Z)
    (distance_km : F) : list (event F) * py (report F) :=
  match generate_grid_points center_lat center_lon num_points distance_km with
  | inl e => ([], inl e)
  | inr grid =>
      let '(tr, r) :=
        points_loop keyword (imap (λ k p, (p, api k)) grid)
          {| all_businesses := []; ranking_data := ∅ |} [] in
      (tr, st ← r;
           inr {| grid_points := grid;
                  businesses := (all_businesses st).*2;
                  rankings := ranking_data st |})
  end.
End Script.
End Script.

(** ** src/generator/generate_analysis.py *)

Module Generator.
Section Generator.
Context {F : Type} `{!FloatOps F}.

Definition generate_grid_points (center_lat center_lon : F) (num_points : Z)
    (distance_km : F) : py (list (GridPoint F)) :=
  grid_points_with (f_cos (f_div (f_mul center_lat f_pi) (f_of_int 180)))
    center_lat center_lon num_points distance_km.

(** No [try] here: a failed request raises. *)
Definition call_dataforseo_api (o : fetch_outcome F) : py (payload F) :=
  match o with
  | FetchFailed => inl RequestException
  | FetchJson data => inr data
  end.

(** An element of the list [process_api_response] returns. *)
Record business_row := mkRow {
  business_id : string;
  business_name : option string;
  business_address : option string;
  business_rating : option F;
  business_reviews : option Z;
  grid_point_id : Z;
  ranking_position : Z
}.

Fixpoint response_loop (point_id : Z) (items : list (Z * item F))
    (acc : list business_row) : py (list business_row) :=
  match items with
  | [] => inr acc
  | (index, it) :: rest =>
      match item_biz_id it with
      | None => response_loop point_id rest acc (* continue *)
      | Some b =>
          value ← rating_get rating_value (rating it);
          votes ← rating_get rating_votes_count (rating it);
          response_loop point_id rest
            (acc ++ [mkRow b (title it) (address it) value votes
                       point_id (index + 1)])
      end
  end.

Definition process_api_response (data : payload F) (point_id : Z)
  : py (list business_row) :=
  match data with
  | NoTasks => inr []
  | NoResult => inr []
  | ItemsAbsent => response_loop point_id (enumerate_from 0 []) []
  | ItemsNull => inl TypeError (* enumerate(None) *)
  | Items items => response_loop point_id (enumerate_from 0 items) []
  end.

(** An element of [all_rankings]. *)
Record ranking_row := mkRanking {
  r_analysis_id : string;
  r_business_id : string;
  r_business_name : option string;
  r_business_address : option string;
  r_business_rating : option F;
  r_business_reviews : option Z;
  r_grid_point_id : Z;
  r_grid_lat : F;
  r_grid_lon : F;
  r_ranking_position : Z
}.

Record gen_state := mkState {
  all_businesses : list (string * Business F);
  all_rankings : list ranking_row
}.

(** The body of [for biz in businesses]. *)
Definition biz_step (analysis_id : string) (point : GridPoint F)
    (st : gen_state) (biz : business_row) : gen_state :=
  let b := business_id biz in
  {| all_businesses :=
       if decide (b ∈ (all_businesses st).*1) then all_businesses st
       else all_businesses st ++
              [(b, mkBusiness b (business_name biz) (business_address biz)
                     (business_rating biz) (business_reviews biz))];
     all_rankings :=
       all_rankings st ++
         [mkRanking analysis_id b (business_name biz) (business_address biz)
            (business_rating biz) (business_reviews biz)
            (gp_id point) (gp_lat point) (gp_lon point)
            (ranking_position biz)] |}.

(** [for point in grid_points] inside the [try]; [api_calls] outlives
    an exception because the handler reads it. *)
Fixpoint points_loop (analysis_id keyword : string)
    (pts : list (GridPoint F * fetch_outcome F))
    (st : gen_state) (tr : list (event F)) (api_calls : Z)
  : list (event F) * Z * py gen_state :=
  match pts with
  | [] => (tr, api_calls, inr st)
  | (point, o) :: rest =>
      let tr := tr ++ [EvFetch (gp_lat point) (gp_lon point) keyword] in
      match call_dataforseo_api o with
      | inl e => (tr, api_calls, inl e)
      | inr response =>
          let api_calls := api_calls + 1 in
          match process_api_response response (gp_id point) with
          | inl e => (tr, api_calls, inl e)
          | inr bizs =>
              points_loop analysis_id keyword rest
                (foldl (biz_step analysis_id point) st bizs) tr api_calls
          end
      end
  end.

(** "Organize rankings by business". *)
Definition organize_rankings (all_rankings : list ranking_row)
  : gmap string (gmap Z Z) :=
  foldl (λ d r, store_ranking (r_business_id r) (r_grid_point_id r)
                  (r_ranking_position r) d) ∅ all_rankings.

(** [run_analysis] up to the assembled [output_data]; publishing and
    recording it are left to the collaborators.  The grid is computed
    before the database is opened, the loop runs inside the [try]. *)
Definition run_analysis (api : nat → fetch_outcome F) (analysis_id : string)
    (center_lat center_lon : F) (keyword : string) (num_points : Z)
    (distance_km : F) : list (event F) * py (report F) :=
  match generate_grid_points center_lat center_lon num_points distance_km with
  | inl e => ([], inl e)
  | inr grid =>
      match calculate_grid_dimensions num_points with
      | inl e => ([], inl e)
      | inr (rows, cols) =>
          let '(tr, api_calls, r) :=
            points_loop analysis_id keyword (imap (λ k p, (p, api k)) grid)
              {| all_businesses := []; all_rankings := [] |}
              [EvDbInsertAnalysis rows cols] 0 in
          match r with
          | inl e => (tr ++ [EvDbMarkFailed e api_calls], inl e)
          | inr st =>
              (tr, inr {| grid_points := grid;
                          businesses := (all_businesses st).*2;
                          rankings := organize_rankings (all_rankings st) |})
          end
      end
  end.
End Generator.
End Generator.

(** ** A model of the float interface for examples

    Exact rationals, with the meridian correction fixed at [cos = 1] (the
    equator) and rounding to the nearest millionth. *)

Definition q_round6 (x : Q) : Q :=
  Qmake (Qfloor (Qplus (Qmult x (inject_Z 1000000)) (Qmake 1 2))) 1000000.

#[global] Instance QFloat : FloatOps Q := {|
  f_of_int := inject_Z;
  f_add := Qplus;
  f_mul := Qmult;
  f_div := Qdiv;
  f_pi := Qmake 355 113;
  f_radians := λ x, Qmult x (Qdiv (Qmake 355 113) (inject_Z 180));
  f_cos := λ _, inject_Z 1;
  f_round6 := q_round6
|}.

(** Example data: an entry with a place id and a title, an entry with
    neither identifier, and points of the 1 x 2 grid around the origin. *)
Definition entry (id name : string) : item Q :=
  mkItem (Some id) None (Some name) None RatingAbsent.

Definition anonymous_entry (name : string) : item Q :=
  mkItem None None (Some name) None RatingAbsent.

Definition q0 : Q := inject_Z 0.
Definition q1 : Q := inject_Z 1.



(** A provider that lists the same business twice for every point. *)
Definition duplicate_api (k : nat) : fetch_outcome Q :=
  FetchJson (Items [entry "A" "first"; entry "A" "second"]).

(** A provider whose lists mix identified and anonymous entries. *)
Definition mixed_api (k : nat) : fetch_outcome Q :=
  match k with
  | O => FetchJson (Items [anonymous_entry "x"; entry "A" "a"; entry "B" "b"])
  | _ => FetchJson (Items [entry "B" "b2"; anonymous_entry "y"; entry "C" "c"])
  end.

(** The runs of both files over two points of [mixed_api], and of the
    script over one point of [duplicate_api]. *)
Definition empty_report : report Q := mkReport [] [] ∅.

Definition run_report (r : list (event Q) * py (report Q)) : report Q :=
  match r.2 with
  | inr rep => rep
  | inl _ => empty_report
  end.

Definition mixed_trace : list (event Q) :=
  Eval vm_compute in (Script.generate_analysis mixed_api q0 q0 "cafe" 2 q1).1.

Definition mixed_report : report Q :=
  Eval vm_compute in run_report (Script.generate_analysis mixed_api q0 q0 "cafe" 2 q1).

Definition duplicate_trace : list (event Q) :=
  Eval vm_compute in (Script.generate_analysis duplicate_api q0 q0 "cafe" 1 q1).1.

Definition duplicate_report : report Q :=
  Eval vm_compute in
    run_report (Script.generate_analysis duplicate_api q0 q0 "cafe" 1 q1).



(** The grid of two points around the origin, as the class computes it. *)
Definition failing_grid : list (GridPoint Q) :=
  Eval vm_compute in
    match Generator.generate_grid_points q0 q0 2 q1 with
    | inr grid => grid
    | inl _ => []
    end.



(** A provider whose second request fails, and one whose second response
    has a [null] items list; in both the first and the third request
    return a business. *)
Definition late_failure_api (k : nat) : fetch_outcome Q :=
  match k with
  | O => FetchJson (Items [entry "A" "a"])
  | S O => FetchFailed
  | _ => FetchJson (Items [entry "B" "b"])
  end.

Definition late_null_api (k : nat) : fetch_outcome Q :=
  match k with
  | O => FetchJson (Items [entry "A" "a"])
  | S O => FetchJson ItemsNull
  | _ => FetchJson (Items [entry "B" "b"])
  end.

(** The grid of three points around the origin, as the class computes it. *)
Definition late_grid : list (GridPoint Q) :=
  Eval vm_compute in
    match Generator.generate_grid_points q0 q0 3 q1 with
    | inr grid => grid
    | inl _ => []
    end.

(** ** Specification-side definitions *)

Section GridSpec.
Context {F : Type} `{!FloatOps F}.

(** The cells of a lattice in row-major order. *)
Definition lattice (cols : Z) (rs : list Z) : list (Z * Z) :=
  flat_map (λ i, pair i <$> range cols) rs.

(** Cells turned into points numbered from [c]. *)
Fixpoint number (mk : Z → Z → Z → GridPoint F) (c : Z) (cells : list (Z * Z))
  : list (GridPoint F) :=
  match cells with
  | [] => []
  | (i, j) :: cells' => mk c i j :: number mk (c + 1) cells'
  end.
End GridSpec.

Section AggSpec.
Context {F : Type}.

(** One rank observation, with the entry it comes from. *)
Record obs := mkObs {
  o_point : Z;
  o_position : Z;
  o_biz : string;
  o_item : item F
}.

(** The observations one result list gives, in list order. *)
Fixpoint item_observations (point_id : Z) (items : list (Z * item F)) : list obs :=
  match items with
  | [] => []
  | (index, it) :: rest =>
      match item_biz_id it with
      | None => item_observations point_id rest
      | Some b => mkObs point_id (index + 1) b it :: item_observations point_id rest
      end
  end.

Definition point_observations (point_id : Z) (o : fetch_outcome F) : list obs :=
  match Script.call_dataforseo_api o with
  | None => []
  | Some items => item_observations point_id (enumerate_from 0 items)
  end.

(** The observations of a sequence of points, in processing order. *)
Definition observations (pts : list (GridPoint F * fetch_outcome F)) : list obs :=
  flat_map (λ p, point_observations (gp_id p.1) p.2) pts.

(** The observations of a run over [n] points. *)
Definition run_observations (api : nat → fetch_outcome F) (n : nat) : list obs :=
  flat_map (λ k, point_observations (Z.of_nat k) (api k)) (seq 0 n).

Definition record_ranking (d : gmap string (gmap Z Z)) (o : obs)
  : gmap string (gmap Z Z) :=
  store_ranking (o_biz o) (o_point o) (o_position o) d.

Fixpoint register (d : list (string * Business F)) (os : list obs)
  : py (list (string * Business F)) :=
  match os with
  | [] => inr d
  | o :: rest =>
      d' ← Script.store_business (o_biz o) (o_item o) d;
      register d' rest
  end.

(** The rank stored for a business at a point. *)
Definition rank_at (d : gmap string (gmap Z Z)) (b : string) (p : Z) : option Z :=
  d !! b ≫= λ m, m !! p.

(** Entry [k] of the list returned for the [p]-th request yields [b]. *)
Definition sighting (api : nat → fetch_outcome F) (p k : nat) (it : item F)
    (b : string) : Prop :=
  ∃ items, Script.call_dataforseo_api (api p) = Some items ∧
           items !! k = Some it ∧ item_biz_id it = Some b.

(** [o] is the observation made at entry [k] of the [p]-th request. *)
Definition obs_of (api : nat → fetch_outcome F) (p k : nat) (o : obs) : Prop :=
  ∃ it, sighting api p k it (o_biz o) ∧
        o = mkObs (Z.of_nat p) (Z.of_nat k + 1) (o_biz o) it.

(** Processing order of entries: by point, then by list index. *)
Definition earlier (p' k' p k : nat) : Prop :=
  (p' < p)%nat ∨ (p' = p ∧ k' < k)%nat.

Definition fetch_event (keyword : string) (p : GridPoint F * fetch_outcome F)
  : event F :=
  EvFetch (gp_lat p.1) (gp_lon p.1) keyword.
End AggSpec.
Arguments obs : clear implicits.

Section GeneratorSpec.
Context {F : Type}.

(** The row [process_api_response] builds for an observation. *)
Definition obs_row (o : obs F) : py (@Generator.business_row F) :=
  value ← rating_get rating_value (rating (o_item o));
  votes ← rating_get rating_votes_count (rating (o_item o));
  inr (Generator.mkRow (o_biz o) (title (o_item o)) (address (o_item o))
         value votes (o_point o) (o_position o)).

Fixpoint obs_rows (os : list (obs F)) : py (list (@Generator.business_row F)) :=
  match os with
  | [] => inr []
  | o :: rest => r ← obs_row o; rs ← obs_rows rest; inr (r :: rs)
  end.

(** A response the generator class can iterate over. *)
Definition iterable (o : fetch_outcome F) : Prop :=
  ∃ data, o = FetchJson data ∧ data ≠ ItemsNull.
End GeneratorSpec.

Section ClaimSpec.
Context {F : Type} `{!FloatOps F}.



(** No identified entry of the run has a [null] rating. *)
Definition ratings_well_formed (api : nat → fetch_outcome F) (n : Z) : Prop :=
  Forall (λ o, rating (o_item o) ≠ RatingNull) (run_observations api (Z.to_nat n)).
End ClaimSpec.

Section AggregationSpec.
Context {F : Type}.
Implicit Types (api : nat → fetch_outcome F) (rep : report F).

(** No entry processed before entry [k] of request [p] yields [b]. *)
Definition first_sighting api (p k : nat) (b : string) : Prop :=
  ∀ (p' k' : nat) it', earlier p' k' p k → ¬ sighting api p' k' it' b.

(** No entry after entry [k] in the list of request [p] yields [b]. *)
Definition last_in_list api (p k : nat) (b : string) : Prop :=
  ∀ (k' : nat) it', (k < k')%nat → ¬ sighting api p k' it' b.


(** The rank of a pair (business, point) is the position of the last
    entry of the point's list that yields the business. *)
Definition last_position_recorded api (n : Z) rep : Prop :=
  ∀ (p k : nat) it b,
    (p < Z.to_nat n)%nat → sighting api p k it b → last_in_list api p k b →
    rank_at (rankings rep) b (Z.of_nat p) = Some (Z.of_nat k + 1).

(** Every rank in the report is the 1-based list index of an entry that
    yields the business, in the list of that point. *)
Definition ranks_are_positions api (n : Z) rep : Prop :=
  ∀ b pt v,
    rank_at (rankings rep) b pt = Some v →
    ∃ (p k : nat) it, (p < Z.to_nat n)%nat ∧ pt = Z.of_nat p ∧
                      v = Z.of_nat k + 1 ∧ sighting api p k it b.





End AggregationSpec.

Section GridStructure.
Context {F : Type} `{!FloatOps F}.

End GridStructure.

(** ** src/generate_analysis.py: the rows [save_to_mysql] inserts *)

Module ScriptStore.
Section ScriptStore.
Context {F : Type}.

(** The parameters of one [INSERT INTO business_rankings]. *)
Record ranking_insert := mkInsert {
  analysis_id : string;
  business_id : string;
  business_name : option string;
  business_address : option string;
  business_rating : option F;
  business_reviews : option Z;
  grid_point_id : Z;
  grid_lat : F;
  grid_lon : F;
  ranking_position : Z
}.

(** The body of [for grid_point in data['grid_points']]: a row when
    [rankings.get(grid_point['id'])] is truthy. *)
Definition point_insert (aid : string) (business : Business F)
    (ranks : gmap Z Z) (grid_point : GridPoint F) : option ranking_insert :=
  match ranks !! gp_id grid_point with
  | Some position =>
      if decide (position = 0) then None
      else Some (mkInsert aid (biz_id business) (biz_title business)
                   (biz_address business) (biz_rating business)
                   (biz_reviews business)
                   (gp_id grid_point) (gp_lat grid_point) (gp_lon grid_point)
                   position)
  | None => None
  end.

(** The body of [for business in data['businesses']]. *)
Definition business_inserts (aid : string) (data : report F)
    (business : Business F) : list ranking_insert :=
  let ranks := default ∅ (rankings data !! biz_id business) in
  omap (point_insert aid business ranks) (grid_points data).

Definition ranking_inserts (aid : string) (data : report F) : list ranking_insert :=
  flat_map (business_inserts aid data) (businesses data).
End ScriptStore.
End ScriptStore.

Section StoreSpec.
Context {F : Type}.

End StoreSpec.

(** ** The addresses both files build *)

(** [s.split(sep)] for a separator [sep] of one character: the pieces
    between the occurrences of [sep], empty pieces included. *)
Fixpoint str_split (sep : ascii) (s : string) : list string :=
  match s with
  | EmptyString => [EmptyString]
  | String c s' =>
      if Ascii.eqb c sep then EmptyString :: str_split sep s'
      else match str_split sep s' with
           | piece :: pieces => String c piece :: pieces
           | [] => [String c EmptyString]
           end
  end.

Definition slash : ascii := "/"%char.

(** The characters of a string. *)
Definition chars (s : string) : list ascii := String.list_ascii_of_string s.

(** ** src/generate_analysis.py *)

Module ScriptUrls.

(** Line 36, evaluated when the module is loaded; [None] is the
    [IndexError] of [GITHUB_REPO.split('/')[1]]. *)
Definition GITHUB_PAGES_URL (GITHUB_REPO : string) : option string :=
  owner ← str_split slash GITHUB_REPO !! 0%nat;
  name ← str_split slash GITHUB_REPO !! 1%nat;
  Some ("https://" +:+ owner +:+ ".github.io/" +:+ name).

(** [push_to_github]: the file name, the address written to and the
    address returned. *)
Definition filename (analysis_id : string) : string :=
  "data/" +:+ analysis_id +:+ ".json".

Definition push_url (GITHUB_REPO analysis_id : string) : string :=
  "https://api.github.com/repos/" +:+ GITHUB_REPO +:+ "/contents/"
    +:+ filename analysis_id.

Definition raw_url (GITHUB_REPO analysis_id : string) : string :=
  "https://raw.githubusercontent.com/" +:+ GITHUB_REPO +:+ "/main/"
    +:+ filename analysis_id.

(** [main]: the address printed for sharing. *)
Definition viewer_url (pages_url analysis_id : string) : string :=
  pages_url +:+ "/?data=" +:+ analysis_id.

End ScriptUrls.

(** ** src/generator/generate_analysis.py *)

Module GeneratorUrls.

(** [run_analysis], line 229. *)
Definition json_filename (analysis_id : string) : string :=
  analysis_id +:+ ".json".

(** [push_to_github]. *)
Definition path (filename : string) : string := "data/" +:+ filename.

Definition push_url (github_repo filename : string) : string :=
  "https://api.github.com/repos/" +:+ github_repo +:+ "/contents/"
    +:+ path filename.

Definition raw_url (github_repo filename : string) : string :=
  "https://raw.githubusercontent.com/" +:+ github_repo +:+ "/main/"
    +:+ path filename.

Definition get_viewer_url (base_url analysis_id : string) : string :=
  base_url +:+ "?data=" +:+ analysis_id.

End GeneratorUrls.

(** The defaults of [GITHUB_REPO] and [BASE_URL]. *)
Definition default_repo : string := "lvoigt1965/gbp-ranking-map".
Definition default_base_url : string := "https://lvoigt1965.github.io/gbp-ranking-map/".

(** * Grid generation *)

Lemma range_length n : length (range n) = Z.to_nat n.
Proof. unfold range. by rewrite length_fmap, length_seq. Qed.

Lemma range_lookup n (k : nat) :
  (k < Z.to_nat n)%nat → range n !! k = Some (Z.of_nat k).
Proof.
  intros Hk. unfold range. rewrite list_lookup_fmap, lookup_seq_lt by done.
  done.
Qed.

Lemma calculate_grid_dimensions_ok n :
  1 ≤ n →
  calculate_grid_dimensions n = inr (Z.sqrt n, - ((- n) / Z.sqrt n)) ∧
  1 ≤ Z.sqrt n.
Proof.
  intros Hn. assert (1 ≤ Z.sqrt n) as Hs.
  { change 1 with (Z.sqrt 1). by apply Z.sqrt_le_mono. }
  split; [|done]. unfold calculate_grid_dimensions, math_sqrt_floor, math_ceil_div.
  destruct (Z.ltb_spec n 0); [lia|]. simpl.
  destruct (Z.eqb_spec (Z.sqrt n) 0); [lia|]. done.
Qed.

Lemma ceil_div_bounds n r :
  0 < r → r * (- ((- n) / r) - 1) < n ≤ r * (- ((- n) / r)).
Proof.
  intros Hr. pose proof (Z.div_mod (- n) r ltac:(lia)) as Hdm.
  pose proof (Z.mod_pos_bound (- n) r Hr). nia.
Qed.

Section GridLemmas.
Context {F : Type} `{!FloatOps F}.
Variables (center_lat center_lon : F) (num_points : Z).
Variables (offset start_row start_col cos_lat : F).

Local Abbreviation mk :=
  (cell_point center_lat center_lon offset start_row start_col cos_lat).
Local Abbreviation cols_loop' :=
  (cols_loop center_lat center_lon num_points offset start_row start_col cos_lat).
Local Abbreviation rows_loop' :=
  (rows_loop center_lat center_lon num_points offset start_row start_col cos_lat).

Lemma number_app c l1 l2 :
  number mk c (l1 ++ l2) = number mk c l1 ++ number mk (c + Z.of_nat (length l1)) l2.
Proof.
  revert c. induction l1 as [|[i j] l1 IH]; intros c; simpl.
  - by rewrite Z.add_0_r.
  - rewrite IH. do 3 f_equal. lia.
Qed.

Lemma number_length c l : length (number mk c l) = length l.
Proof. revert c. induction l as [|[i j] l IH]; intros c; simpl; [done|]. by rewrite IH. Qed.

Lemma number_lookup c l (k : nat) i j :
  l !! k = Some (i, j) → number mk c l !! k = Some (mk (c + Z.of_nat k) i j).
Proof.
  revert c k. induction l as [|[i' j'] l IH]; intros c k Hk; [done|].
  destruct k as [|k]; simpl in *.
  - injection Hk as -> ->. by rewrite Z.add_0_r.
  - rewrite (IH _ _ Hk). do 2 f_equal. lia.
Qed.

(** The inner loop emits the cells of one row until the count is reached. *)
Lemma cols_loop_spec i js pts c :
  let out := take (Z.to_nat (num_points - c)) (pair i <$> js) in
  cols_loop' i js (pts, c) = (pts ++ number mk c out, c + Z.of_nat (length out)).
Proof.
  revert pts c. induction js as [|j js IH]; intros pts c; simpl.
  - rewrite take_nil. simpl. by rewrite app_nil_r, Z.add_0_r.
  - destruct (Z.leb_spec num_points c) as [Hle|Hlt].
    + replace (Z.to_nat (num_points - c)) with 0%nat by lia. simpl.
      by rewrite app_nil_r, Z.add_0_r.
    + replace (Z.to_nat (num_points - c)) with (S (Z.to_nat (num_points - (c + 1)))) by lia.
      rewrite IH. simpl. rewrite <- app_assoc. simpl. f_equal. unfold fmap. lia.
Qed.

(** The outer loop emits the lattice row by row until the count is reached. *)
Lemma rows_loop_spec cols rs pts c :
  let out := take (Z.to_nat (num_points - c)) (lattice cols rs) in
  rows_loop' cols rs (pts, c) = (pts ++ number mk c out, c + Z.of_nat (length out)).
Proof.
  revert pts c. induction rs as [|i rs IH]; intros pts c; simpl.
  - rewrite take_nil. simpl. by rewrite app_nil_r, Z.add_0_r.
  - destruct (Z.leb_spec num_points c) as [Hle|Hlt].
    + replace (Z.to_nat (num_points - c)) with 0%nat by lia. simpl.
      by rewrite app_nil_r, Z.add_0_r.
    + rewrite cols_loop_spec, IH. unfold lattice. simpl.
      rewrite take_app, number_app, app_assoc.
      set (m := Z.to_nat (num_points - c)).
      set (row := pair i <$> range cols).
      assert (Z.to_nat (num_points - (c + Z.of_nat (length (take m row))))
              = (m - length row)%nat) as ->.
      { rewrite length_take. unfold m. lia. }
      f_equal. rewrite length_app. lia.
Qed.
End GridLemmas.

Lemma lattice_length cols rs :
  length (lattice cols rs) = (length rs * Z.to_nat cols)%nat.
Proof.
  induction rs as [|i rs IH]; [done|]. unfold lattice in *. simpl.
  by rewrite length_app, IH, length_fmap, range_length.
Qed.

Lemma lattice_lookup_nat (c : nat) rs (q r : nat) i :
  rs !! q = Some i → (r < c)%nat →
  lattice (Z.of_nat c) rs !! (q * c + r)%nat = Some (i, Z.of_nat r).
Proof.
  intros Hq Hr. revert q Hq. induction rs as [|i' rs IH]; intros q Hq; [done|].
  unfold lattice in *. simpl. destruct q as [|q]; simpl in *.
  - injection Hq as ->. rewrite lookup_app_l.
    + rewrite list_lookup_fmap, range_lookup by lia. done.
    + rewrite length_fmap, range_length. lia.
  - rewrite lookup_app_r; rewrite length_fmap, range_length, Nat2Z.id; [|lia].
    replace (c + q * c + r - c)%nat with (q * c + r)%nat by lia. by apply IH.
Qed.

Lemma lattice_lookup rows cols k :
  0 < cols → 0 ≤ k < rows * cols →
  lattice cols (range rows) !! Z.to_nat k = Some (k / cols, k mod cols).
Proof.
  intros Hc Hk.
  pose proof (Z.div_mod k cols ltac:(lia)) as Hdm.
  pose proof (Z.mod_pos_bound k cols Hc) as Hm.
  assert (0 ≤ k / cols < rows) as Hq.
  { split; [apply Z.div_pos; lia|]. apply Z.div_lt_upper_bound; lia. }
  replace (Z.to_nat k)
    with (Z.to_nat (k / cols) * Z.to_nat cols + Z.to_nat (k mod cols))%nat by nia.
  pose proof (lattice_lookup_nat (Z.to_nat cols) (range rows)
                (Z.to_nat (k / cols)) (Z.to_nat (k mod cols)) (k / cols)) as H.
  rewrite !Z2Nat.id in H by lia. apply H; [|lia].
  rewrite range_lookup by lia. f_equal. lia.
Qed.

Section GridTotal.
Context {F : Type} `{!FloatOps F}.

(** Both files: for a positive count the grid is the first [num_points]
    cells of the lattice in row-major order, numbered from 0. *)
Lemma grid_points_with_spec (cos_lat center_lat center_lon : F) num_points
    (distance_km : F) :
  1 ≤ num_points →
  let rows := Z.sqrt num_points in
  let cols := - ((- num_points) / rows) in
  ∃ pts,
    grid_points_with cos_lat center_lat center_lon num_points distance_km
      = inr pts ∧
    length pts = Z.to_nat num_points ∧
    ∀ k, 0 ≤ k < num_points →
      pts !! Z.to_nat k =
        Some (cell_point center_lat center_lon (grid_offset distance_km)
                (grid_start rows) (grid_start cols) cos_lat
                k (k / cols) (k mod cols)).
Proof.
  intros Hn rows cols.
  destruct (calculate_grid_dimensions_ok _ Hn) as [Hdim Hrows].
  pose proof (ceil_div_bounds num_points rows ltac:(lia)) as Hceil.
  fold cols in Hceil. assert (0 < cols) as Hcols by nia.
  unfold grid_points_with. rewrite Hdim. simpl.
  rewrite rows_loop_spec. simpl. rewrite Z.sub_0_r. fold rows cols. eexists. split; [reflexivity|].
  assert (Z.to_nat num_points ≤ length (lattice cols (range rows)))%nat as Hlen.
  { rewrite lattice_length, range_length, <- Z2Nat.inj_mul by lia.
    apply Z2Nat.inj_le; lia. }
  split.
  - rewrite number_length, length_take. lia.
  - intros k Hk. erewrite number_lookup.
    + by rewrite Z.add_0_l, Z2Nat.id by lia.
    + rewrite lookup_take_lt by lia. apply lattice_lookup; [done|]. nia.
Qed.

Lemma grid_ids_range (pts : list (GridPoint F)) n :
  length pts = Z.to_nat n →
  (∀ k, 0 ≤ k < n → gp_id <$> pts !! Z.to_nat k = Some k) →
  gp_id <$> pts = range n.
Proof.
  intros Hlen Hk. apply list_eq. intros i.
  destruct (decide (i < Z.to_nat n)%nat) as [Hi|Hi].
  - rewrite range_lookup by done. rewrite list_lookup_fmap.
    specialize (Hk (Z.of_nat i) ltac:(lia)). by rewrite Nat2Z.id in Hk.
  - rewrite !lookup_ge_None_2; [done| |].
    + rewrite range_length. lia.
    + rewrite length_fmap. lia.
Qed.
End GridTotal.

Section GridShape.
Context {F : Type} `{!FloatOps F}.

End GridShape.

(** * Aggregation *)

Section ScriptLemmas.
Context {F : Type}.
Implicit Types (d : list (string * Business F)) (os : list (obs F)).
Implicit Types (rd : gmap string (gmap Z Z)).

Lemma register_app d os1 os2 :
  register d (os1 ++ os2) = d' ← register d os1; register d' os2.
Proof.
  revert d. induction os1 as [|o os1 IH]; intros d; simpl; [done|].
  destruct (Script.store_business _ _ d) as [e|d']; simpl; [done|]. apply IH.
Qed.

(** The inner loop is the flattened fold over the list's observations. *)
Lemma items_loop_spec point_id (items : list (Z * item F)) (st : @Script.agg_state F) :
  Script.items_loop point_id items st =
    d ← register (Script.all_businesses st) (item_observations point_id items);
    inr (Script.mkState d
           (foldl record_ranking (Script.ranking_data st)
              (item_observations point_id items))).
Proof.
  revert st. induction items as [|[index it] items IH]; intros [d rd]; simpl; [done|].
  unfold Script.item_step. destruct (item_biz_id it) as [b|]; simpl.
  - destruct (Script.store_business b it d) as [e|d']; simpl; [done|].
    by rewrite IH.
  - by rewrite IH.
Qed.

Lemma points_loop_result keyword pts (st : @Script.agg_state F) tr :
  (Script.points_loop keyword pts st tr).2 =
    d ← register (Script.all_businesses st) (observations pts);
    inr (Script.mkState d
           (foldl record_ranking (Script.ranking_data st) (observations pts))).
Proof.
  revert st tr. induction pts as [|[point o] pts IH]; intros [d rd] tr; simpl; [done|].
  unfold observations. simpl. fold (observations pts).
  rewrite register_app, foldl_app. unfold point_observations.
  destruct (Script.call_dataforseo_api o) as [items|]; simpl.
  - rewrite items_loop_spec. simpl.
    destruct (register d _) as [e|d']; simpl; [done|]. by rewrite IH.
  - by rewrite IH.
Qed.

Lemma points_loop_trace keyword pts (st : @Script.agg_state F) tr tr' st' :
  Script.points_loop keyword pts st tr = (tr', inr st') →
  tr' = tr ++ (fetch_event keyword <$> pts).
Proof.
  revert st tr. induction pts as [|[point o] pts IH]; intros st tr; simpl.
  - intros [= <- _]. by rewrite app_nil_r.
  - destruct (Script.call_dataforseo_api o) as [items|].
    + destruct (Script.items_loop _ _ st) as [e|st1]; [done|].
      intros ->%IH. by rewrite <- app_assoc.
    + intros ->%IH. by rewrite <- app_assoc.
Qed.
End ScriptLemmas.

Section RankingLemmas.
Context {F : Type}.
Implicit Types (os : list (obs F)) (o : obs F).
Implicit Types (rd : gmap string (gmap Z Z)).

Lemma rank_at_store b p v rd b' p' :
  rank_at (store_ranking b p v rd) b' p' =
    if decide (b = b' ∧ p = p') then Some v else rank_at rd b' p'.
Proof.
  unfold rank_at, store_ranking. destruct (decide (b = b')) as [<-|Hb].
  - rewrite lookup_insert_eq. simpl. destruct (decide (p = p')) as [<-|Hp].
    + rewrite lookup_insert_eq. by rewrite decide_True.
    + rewrite lookup_insert_ne by done. rewrite decide_False by (by intros []).
      by destruct (rd !! b).
  - rewrite lookup_insert_ne by done. by rewrite decide_False by (by intros []).
Qed.

Lemma store_ranking_is_Some b p v rd b' :
  is_Some (store_ranking b p v rd !! b') ↔ b = b' ∨ is_Some (rd !! b').
Proof.
  unfold store_ranking. destruct (decide (b = b')) as [<-|Hb].
  - rewrite lookup_insert_eq. split; [by left|by eexists].
  - rewrite lookup_insert_ne by done. split; [by right|by intros [?|?]].
Qed.


Lemma rank_at_unchanged rd os b p :
  Forall (λ o, ¬ (o_biz o = b ∧ o_point o = p)) os →
  rank_at (foldl record_ranking rd os) b p = rank_at rd b p.
Proof.
  intros Hos. revert rd. induction Hos as [|o os Ho _ IH]; intros rd; simpl; [done|].
  rewrite IH. unfold record_ranking. rewrite rank_at_store.
  by rewrite decide_False.
Qed.

(** The last observation of a pair (business, point) decides its rank. *)
Lemma rank_at_last rd os1 o os2 :
  Forall (λ o', ¬ (o_biz o' = o_biz o ∧ o_point o' = o_point o)) os2 →
  rank_at (foldl record_ranking rd (os1 ++ o :: os2)) (o_biz o) (o_point o)
    = Some (o_position o).
Proof.
  intros Hos2. rewrite foldl_app. simpl. rewrite rank_at_unchanged by done.
  unfold record_ranking. rewrite rank_at_store. by rewrite decide_True.
Qed.

(** Every stored rank is the position of an observation. *)
Lemma rank_at_origin rd os b p v :
  rank_at (foldl record_ranking rd os) b p = Some v →
  rank_at rd b p = Some v ∨
  ∃ o, o ∈ os ∧ o_biz o = b ∧ o_point o = p ∧ o_position o = v.
Proof.
  revert rd. induction os as [|o os IH]; intros rd; simpl; [by left|].
  intros [H|(o' & Ho' & H)]%IH.
  - unfold record_ranking in H. rewrite rank_at_store in H.
    case_decide as Hd; [|by left]. destruct Hd as [<- <-]. injection H as <-.
    right. exists o. split; [left|done].
  - right. exists o'. split; [by right|done].
Qed.

Lemma rankings_keys rd os b :
  is_Some (foldl record_ranking rd os !! b) ↔
  is_Some (rd !! b) ∨ ∃ o, o ∈ os ∧ o_biz o = b.
Proof.
  revert rd. induction os as [|o os IH]; intros rd; simpl.
  - split; [by left|]. intros [?|(o & Ho & _)]; [done|]. by apply elem_of_nil in Ho.
  - rewrite IH. unfold record_ranking at 1. rewrite store_ranking_is_Some. split.
    + intros [[<-|?]|(o' & Ho' & <-)]; [right|by left|right].
      * exists o. split; [left|done].
      * exists o'. split; [by right|done].
    + intros [?|(o' & Ho' & <-)]; [left; by right|].
      apply elem_of_cons in Ho' as [->|Ho']; [left; by left|].
      right. by exists o'.
Qed.


End RankingLemmas.

Section RegisterLemmas.
Context {F : Type}.
Implicit Types (d : list (string * Business F)) (os : list (obs F)) (o : obs F).

Lemma mk_business_inr b (it : item F) r :
  mk_business b it = inr r →
  biz_id r = b ∧ biz_title r = title it ∧ biz_address r = address it ∧
  rating_get rating_value (rating it) = inr (biz_rating r) ∧
  rating_get rating_votes_count (rating it) = inr (biz_reviews r).
Proof.
  unfold mk_business. destruct (rating it); simpl; [|done|]; by intros [= <-].
Qed.


Lemma register_keys d os d' b :
  register d os = inr d' →
  b ∈ d'.*1 ↔ b ∈ d.*1 ∨ ∃ o, o ∈ os ∧ o_biz o = b.
Proof.
  revert d. induction os as [|o os IH]; intros d; simpl.
  - intros [= <-]. split; [by left|]. intros [?|(o & Ho & _)]; [done|].
    by apply elem_of_nil in Ho.
  - unfold Script.store_business. case_decide as Hin; simpl.
    + intros ->%IH. split.
      * intros [?|(o' & ? & ?)]; [by left|]. right. exists o'. split; [by right|done].
      * intros [?|(o' & [->|Ho']%elem_of_cons & <-)]; [by left|by left|].
        right. by exists o'.
    + destruct (mk_business _ _) as [e|r]; simpl; [done|].
      intros ->%IH. rewrite fmap_app, elem_of_app. simpl.
      rewrite list_elem_of_singleton. split.
      * intros [[?| ->]|(o' & ? & ?)]; [by left| |].
        -- right. exists o. split; [left|done].
        -- right. exists o'. split; [by right|done].
      * intros [?|(o' & [->|Ho']%elem_of_cons & <-)]; [left; by left|left; by right|].
        right. by exists o'.
Qed.

Lemma register_prefix d os d' : register d os = inr d' → d `prefix_of` d'.
Proof.
  revert d. induction os as [|o os IH]; intros d; simpl.
  - by intros [= <-].
  - unfold Script.store_business. case_decide; simpl; [apply IH|].
    destruct (mk_business _ _) as [e|r]; simpl; [done|].
    intros Hr%IH. etrans; [|done]. by apply prefix_app_r.
Qed.

(** Deduplication: identifiers stay pairwise distinct. *)
Lemma register_NoDup d os d' :
  register d os = inr d' → NoDup d.*1 → NoDup d'.*1.
Proof.
  revert d. induction os as [|o os IH]; intros d; simpl.
  - by intros [= <-].
  - unfold Script.store_business. case_decide as Hin; simpl; [apply IH|].
    destruct (mk_business _ _) as [e|r]; simpl; [done|].
    intros Hr Hd. apply (IH _ Hr). rewrite fmap_app. simpl.
    apply NoDup_app. split_and!; [done| |apply NoDup_singleton].
    intros x Hx ->%list_elem_of_singleton. done.
Qed.

(** Each stored dictionary carries its key as ['id']. *)
Lemma register_ids d os d' :
  register d os = inr d' →
  Forall (λ kr, biz_id kr.2 = kr.1) d → Forall (λ kr, biz_id kr.2 = kr.1) d'.
Proof.
  revert d. induction os as [|o os IH]; intros d; simpl.
  - by intros [= <-].
  - unfold Script.store_business. case_decide as Hin; simpl; [apply IH|].
    destruct (mk_business _ _) as [e|r] eqn:Hmk; simpl; [done|].
    intros Hr Hd. apply (IH _ Hr). apply Forall_app. split; [done|].
    apply Forall_singleton. simpl. by apply mk_business_inr in Hmk as [? _].
Qed.


(** Every stored dictionary comes from such a first observation. *)
Lemma register_origin d os d' b r :
  register d os = inr d' → (b, r) ∈ d' →
  (b, r) ∈ d ∨
  ∃ os1 o os2, os = os1 ++ o :: os2 ∧ o_biz o = b ∧ (b ∉ d.*1) ∧
    Forall (λ o', o_biz o' ≠ b) os1 ∧ mk_business b (o_item o) = inr r.
Proof.
  revert d. induction os as [|o os IH]; intros d; simpl.
  - intros [= <-]. by left.
  - unfold Script.store_business. case_decide as Hin; simpl.
    + intros Hreg Hbr. destruct (IH _ Hreg Hbr) as [?|(os1 & o' & os2 & -> & <- & Hd & Hos1 & Hmk)];
        [by left|right].
      exists (o :: os1), o', os2. split_and!; try done.
      constructor; [|done]. intros Heq. by rewrite Heq in Hin.
    + destruct (mk_business _ _) as [e|r0] eqn:Hmk0; simpl; [done|].
      intros Hreg Hbr. destruct (IH _ Hreg Hbr) as [Hd1|(os1 & o' & os2 & -> & <- & Hd & Hos1 & Hmk)].
      * apply elem_of_app in Hd1 as [?|[= -> ->]%list_elem_of_singleton]; [by left|right].
        exists [], o, os. split_and!; try done.
      * right. rewrite fmap_app, elem_of_app in Hd. simpl in Hd.
        rewrite list_elem_of_singleton in Hd.
        exists (o :: os1), o', os2.
        split_and!; try done; [by intros ?; apply Hd; left|].
        constructor; [|done]. intros Heq. apply Hd. by right.
Qed.
End RegisterLemmas.

Section ObservationLemmas.
Context {F : Type}.
Implicit Types (items : list (item F)) (o : obs F) (api : nat → fetch_outcome F).

Lemma enumerate_from_app {A} s (l1 l2 : list A) :
  enumerate_from s (l1 ++ l2) =
  enumerate_from s l1 ++ enumerate_from (s + Z.of_nat (length l1)) l2.
Proof.
  revert s. induction l1 as [|x l1 IH]; intros s; simpl.
  - by rewrite Z.add_0_r.
  - rewrite IH. do 3 f_equal. lia.
Qed.

Lemma item_observations_app point_id (l1 l2 : list (Z * item F)) :
  item_observations point_id (l1 ++ l2) =
  item_observations point_id l1 ++ item_observations point_id l2.
Proof.
  induction l1 as [|[index it] l1 IH]; simpl; [done|].
  destruct (item_biz_id it); simpl; by rewrite IH.
Qed.

Lemma item_observations_elem point_id s items o :
  o ∈ item_observations point_id (enumerate_from s items) →
  ∃ (k : nat) it, items !! k = Some it ∧ item_biz_id it = Some (o_biz o) ∧
    o = mkObs point_id (s + Z.of_nat k + 1) (o_biz o) it.
Proof.
  revert s. induction items as [|it items IH]; intros s; simpl.
  - by intros ?%elem_of_nil.
  - destruct (item_biz_id it) as [b|] eqn:Hb.
    + intros [-> | Ho]%elem_of_cons.
      * exists 0%nat, it. simpl. split_and!; try done. f_equal. lia.
      * destruct (IH _ Ho) as (k & it' & ? & ? & Heq).
        exists (S k), it'. split_and!; try done. rewrite Heq at 1. f_equal. lia.
    + intros Ho. destruct (IH _ Ho) as (k & it' & ? & ? & Heq).
      exists (S k), it'. split_and!; try done. rewrite Heq at 1. f_equal. lia.
Qed.

Lemma item_observations_split point_id s items (k : nat) it b :
  items !! k = Some it → item_biz_id it = Some b →
  item_observations point_id (enumerate_from s items) =
    item_observations point_id (enumerate_from s (take k items)) ++
    mkObs point_id (s + Z.of_nat k + 1) b it ::
    item_observations point_id
      (enumerate_from (s + Z.of_nat k + 1) (drop (S k) items)).
Proof.
  intros Hk Hb. rewrite <- (take_drop_middle items k it Hk) at 1.
  rewrite enumerate_from_app, item_observations_app. simpl. rewrite Hb.
  rewrite length_take_le by (apply lookup_lt_Some in Hk; lia). done.
Qed.

Lemma point_observations_elem (p : nat) api o :
  o ∈ point_observations (Z.of_nat p) (api p) → ∃ k, obs_of api p k o.
Proof.
  unfold point_observations.
  destruct (Script.call_dataforseo_api (api p)) as [items|] eqn:Hcall;
    [|by intros ?%elem_of_nil].
  intros (k & it & Hk & Hb & Heq)%item_observations_elem.
  exists k, it. split; [by exists items|]. by rewrite Z.add_0_l in Heq.
Qed.

Lemma flat_map_seq_elem {A} (f : nat → list A) a m x :
  x ∈ flat_map f (seq a m) → ∃ p, (a ≤ p < a + m)%nat ∧ x ∈ f p.
Proof.
  rewrite list_elem_of_In, in_flat_map. intros (p & Hp%in_seq & Hx).
  exists p. by rewrite list_elem_of_In.
Qed.

Lemma run_observations_elem api n o :
  o ∈ run_observations api n → ∃ p k, (p < n)%nat ∧ obs_of api p k o.
Proof.
  intros (p & Hp & (k & Hk)%point_observations_elem)%flat_map_seq_elem.
  exists p, k. split; [lia|done].
Qed.

(** The observations of a run, split around one sighting: what comes
    before was seen earlier, what comes after was seen later. *)
Lemma run_observations_split api n (p k : nat) it b :
  (p < n)%nat → sighting api p k it b →
  ∃ before after,
    run_observations api n =
      before ++ mkObs (Z.of_nat p) (Z.of_nat k + 1) b it :: after ∧
    Forall (λ o, ∃ p' k', earlier p' k' p k ∧ obs_of api p' k' o) before ∧
    Forall (λ o, ∃ p' k', (p' < n)%nat ∧ earlier p k p' k' ∧ obs_of api p' k' o)
      after.
Proof.
  intros Hp (items & Hcall & Hk & Hb). unfold run_observations.
  replace n with (p + S (n - S p))%nat by lia.
  rewrite seq_app, flat_map_app. simpl.
  unfold point_observations at 2. rewrite Hcall.
  rewrite (item_observations_split _ _ _ _ _ _ Hk Hb), Z.add_0_l, <- !app_assoc.
  simpl. eexists (_ ++ _), (_ ++ _). split; [by rewrite <- app_assoc|].
  split; apply Forall_app; split; apply Forall_forall; intros o Ho.
  - apply flat_map_seq_elem in Ho as (p' & Hp' & (k' & Hk')%point_observations_elem).
    exists p', k'. split; [left; lia|done].
  - apply item_observations_elem in Ho as (k' & it' & Hk' & Hb' & Heq).
    apply lookup_take_Some in Hk' as [Hk' Hlt].
    exists p, k'. split; [right; lia|]. exists it'. rewrite Z.add_0_l in Heq.
    split; [by exists items|done].
  - apply item_observations_elem in Ho as (k' & it' & Hk' & Hb' & Heq).
    rewrite lookup_drop in Hk'.
    exists p, (S k + k')%nat. split; [lia|]. split; [right; lia|]. exists it'.
    split; [by exists items|]. rewrite Heq at 1. f_equal. lia.
  - apply flat_map_seq_elem in Ho as (p' & Hp' & (k' & Hk')%point_observations_elem).
    exists p', k'. split; [lia|]. split; [left; lia|done].
Qed.
End ObservationLemmas.

Lemma calculate_grid_dimensions_nonpos n :
  n ≤ 0 →
  calculate_grid_dimensions n =
    inl (if decide (n = 0) then ZeroDivisionError else ValueError).
Proof.
  intros Hn. unfold calculate_grid_dimensions, math_sqrt_floor.
  case_decide as H0; [by subst|]. destruct (Z.ltb_spec n 0); [done|lia].
Qed.

Section ScriptRun.
Context {F : Type} `{!FloatOps F}.
Implicit Types (api : nat → fetch_outcome F).

Lemma observations_imap api (grid : list (GridPoint F)) a m :
  gp_id <$> grid = Z.of_nat <$> seq a m →
  observations (imap (λ k p, (p, api (a + k)%nat)) grid) =
  flat_map (λ k, point_observations (Z.of_nat k) (api k)) (seq a m).
Proof.
  revert a m. induction grid as [|p grid IH]; intros a [|m]; simpl; try done.
  intros [= Hp Hgrid]. unfold observations. simpl. rewrite Nat.add_0_r, Hp. f_equal.
  rewrite <- (IH _ _ Hgrid). unfold observations. f_equal.
  apply imap_ext. intros k x _. simpl. do 2 f_equal. lia.
Qed.

Lemma run_observations_grid api (grid : list (GridPoint F)) n :
  gp_id <$> grid = range n →
  observations (imap (λ k p, (p, api k)) grid) = run_observations api (Z.to_nat n).
Proof. intros H. by apply (observations_imap api grid 0). Qed.

Lemma grid_points_with_inr (cos_lat center_lat center_lon : F) n
    (distance_km : F) grid :
  grid_points_with cos_lat center_lat center_lon n distance_km = inr grid →
  1 ≤ n ∧ length grid = Z.to_nat n ∧ gp_id <$> grid = range n.
Proof.
  intros Hg. destruct (decide (1 ≤ n)) as [Hn|Hn].
  - destruct (grid_points_with_spec cos_lat center_lat center_lon n distance_km Hn)
      as (pts & Hpts & Hlen & Hk).
    rewrite Hg in Hpts. injection Hpts as <-. split_and!; try done.
    apply grid_ids_range; [done|]. intros k Hk'. by rewrite (Hk k Hk').
  - unfold grid_points_with in Hg.
    by rewrite calculate_grid_dimensions_nonpos in Hg by lia.
Qed.

(** A completed run of the script, in terms of its observations. *)
Lemma generate_analysis_inr api (center_lat center_lon : F) keyword n
    (distance_km : F) tr rep :
  Script.generate_analysis api center_lat center_lon keyword n distance_km
    = (tr, inr rep) →
  1 ≤ n ∧
  Script.generate_grid_points center_lat center_lon n distance_km
    = inr (grid_points rep) ∧
  tr = fetch_event keyword <$> imap (λ k p, (p, api k)) (grid_points rep) ∧
  rankings rep = foldl record_ranking ∅ (run_observations api (Z.to_nat n)) ∧
  ∃ reg, register [] (run_observations api (Z.to_nat n)) = inr reg ∧
         businesses rep = reg.*2.
Proof.
  unfold Script.generate_analysis.
  destruct (Script.generate_grid_points _ _ _ _) as [e|grid] eqn:Hgrid; [done|].
  destruct (grid_points_with_inr _ _ _ _ _ _ Hgrid) as (Hn & Hlen & Hids).
  destruct (Script.points_loop _ _ _ _) as [tr' r] eqn:Hloop.
  pose proof (points_loop_result keyword (imap (λ k p, (p, api k)) grid)
                (Script.mkState [] ∅) []) as Hres.
  rewrite Hloop in Hres. simpl in Hres. rewrite (run_observations_grid _ _ n) in Hres by done.
  destruct r as [e|st]; simpl; [done|]. intros [= <- <-]. simpl.
  apply points_loop_trace in Hloop.
  destruct (register [] _) as [e|reg]; simpl in Hres; [done|].
  injection Hres as ->. simpl. split_and!; try done. by exists reg.
Qed.
End ScriptRun.

Section GeneratorLemmas.
Context {F : Type}.
Implicit Types (os : list (obs F)) (o : obs F).
Local Abbreviation row := (@Generator.business_row F).
Local Abbreviation gstate := (@Generator.gen_state F).

Lemma response_loop_spec point_id (items : list (Z * item F)) (acc : list row) :
  Generator.response_loop point_id items acc =
    rs ← obs_rows (item_observations point_id items); inr (acc ++ rs).
Proof.
  revert acc. induction items as [|[index it] items IH]; intros acc; simpl.
  - by rewrite app_nil_r.
  - destruct (item_biz_id it) as [b|]; simpl; [|apply IH].
    unfold obs_row. simpl.
    destruct (rating_get rating_value _) as [e|value]; simpl; [done|].
    destruct (rating_get rating_votes_count _) as [e|votes]; simpl; [done|].
    rewrite IH. destruct (obs_rows _) as [e|rs]; simpl; [done|].
    by rewrite <- app_assoc.
Qed.

Lemma obs_row_inr o (r : row) :
  obs_row o = inr r →
  Generator.business_id r = o_biz o ∧
  Generator.grid_point_id r = o_point o ∧
  Generator.ranking_position r = o_position o ∧
  mk_business (o_biz o) (o_item o) =
    inr (mkBusiness (Generator.business_id r) (Generator.business_name r)
           (Generator.business_address r) (Generator.business_rating r)
           (Generator.business_reviews r)).
Proof.
  unfold obs_row, mk_business.
  destruct (rating_get rating_value _) as [e|value]; simpl; [done|].
  destruct (rating_get rating_votes_count _) as [e|votes]; simpl; [done|].
  by intros [= <-].
Qed.

Lemma organize_rankings_snoc (l : list (@Generator.ranking_row F)) r :
  Generator.organize_rankings (l ++ [r]) =
  store_ranking (Generator.r_business_id r) (Generator.r_grid_point_id r)
    (Generator.r_ranking_position r) (Generator.organize_rankings l).
Proof. unfold Generator.organize_rankings. by rewrite foldl_app. Qed.

(** [for biz in businesses], in terms of the observations behind the rows. *)
Lemma foldl_biz_step analysis_id (point : GridPoint F) (st : gstate) os rows :
  obs_rows os = inr rows →
  Forall (λ o, o_point o = gp_id point) os →
  let st' := foldl (Generator.biz_step analysis_id point) st rows in
  register (Generator.all_businesses st) os = inr (Generator.all_businesses st') ∧
  Generator.organize_rankings (Generator.all_rankings st') =
    foldl record_ranking
      (Generator.organize_rankings (Generator.all_rankings st)) os.
Proof.
  intros Hrows Hos. revert st rows Hrows.
  induction Hos as [|o os Ho _ IH]; intros st rows; simpl.
  - by intros [= <-].
  - destruct (obs_row o) as [e|r] eqn:Hr; simpl; [done|].
    destruct (obs_rows os) as [e|rs] eqn:Hrs; simpl; [done|].
    intros [= <-]. simpl.
    destruct (obs_row_inr _ _ Hr) as (Hb & Hp & Hv & Hmk).
    destruct (IH (Generator.biz_step analysis_id point st r) rs eq_refl) as [IH1 IH2].
    rewrite IH2. simpl. rewrite organize_rankings_snoc. simpl.
    split; [|by rewrite Hb, Hv, <- Ho].
    rewrite <- IH1. unfold Script.store_business. rewrite <- Hb in *. simpl.
    case_decide; simpl; [done|]. by rewrite Hmk.
Qed.
End GeneratorLemmas.

Section GeneratorRun.
Context {F : Type} `{!FloatOps F}.
Implicit Types (os : list (obs F)) (o : obs F) (api : nat → fetch_outcome F).
Local Abbreviation gstate' := (@Generator.gen_state F).

Lemma point_observations_point point_id (fo : fetch_outcome F) :
  Forall (λ o, o_point o = point_id) (point_observations point_id fo).
Proof.
  unfold point_observations. destruct (Script.call_dataforseo_api fo); [|done].
  apply Forall_forall. intros o (k & it & _ & _ & ->)%item_observations_elem. done.
Qed.

Lemma process_api_response_spec (data : payload F) point_id :
  data ≠ ItemsNull →
  Generator.process_api_response data point_id =
    obs_rows (point_observations point_id (FetchJson data)).
Proof.
  intros Hdata. destruct data; try done. simpl.
  unfold point_observations. simpl. rewrite response_loop_spec.
  by destruct (obs_rows _).
Qed.

(** A loop of the generator class that completes: every response was
    iterable, and the state is the flattened fold over the observations. *)
Lemma gen_points_loop_inr analysis_id keyword pts (st : gstate') tr calls
    tr' calls' st' :
  Generator.points_loop analysis_id keyword pts st tr calls
    = (tr', calls', inr st') →
  Forall (λ p, iterable p.2) pts ∧
  register (Generator.all_businesses st) (observations pts)
    = inr (Generator.all_businesses st') ∧
  Generator.organize_rankings (Generator.all_rankings st') =
    foldl record_ranking
      (Generator.organize_rankings (Generator.all_rankings st))
      (observations pts) ∧
  tr' = tr ++ (fetch_event keyword <$> pts) ∧
  calls' = calls + Z.of_nat (length pts).
Proof.
  revert st tr calls. induction pts as [|[point fo] pts IH]; intros st tr calls; simpl.
  - intros [= <- <- <-]. by rewrite app_nil_r, Z.add_0_r.
  - destruct fo as [|data]; simpl; [done|].
    assert (data = ItemsNull ∨ data ≠ ItemsNull) as [-> | Hdata]
      by (destruct data; (by left) || (by right)); [done|].
    rewrite process_api_response_spec by done.
    destruct (obs_rows _) as [e|rows] eqn:Hrows; [done|].
    intros (Hall & Hreg & Hrank & -> & ->)%IH.
    destruct (foldl_biz_step analysis_id point st _ _ Hrows
                (point_observations_point _ _)) as [H1 H2].
    unfold observations. simpl. fold (observations pts).
    rewrite register_app, foldl_app, H1, <- H2. simpl.
    split_and!; try done.
    + constructor; [by exists data|done].
    + by rewrite <- app_assoc.
    + lia.
Qed.

Lemma obs_rows_ok os :
  Forall (λ o, rating (o_item o) ≠ RatingNull) os → ∃ rows, obs_rows os = inr rows.
Proof.
  induction 1 as [|o os Ho _ [rows IH]]; simpl; [by eexists|].
  unfold obs_row. destruct (rating (o_item o)); simpl; [|done|];
    rewrite IH; simpl; by eexists.
Qed.

(** The loop of the generator class completes when every response is
    iterable and no identified entry has a [null] rating. *)
Lemma gen_points_loop_total analysis_id keyword pts (st : gstate') tr calls :
  Forall (λ p, iterable p.2) pts →
  Forall (λ o, rating (o_item o) ≠ RatingNull) (observations pts) →
  ∃ st', Generator.points_loop analysis_id keyword pts st tr calls
           = (tr ++ (fetch_event keyword <$> pts),
              calls + Z.of_nat (length pts), inr st').
Proof.
  intros Hit. revert st tr calls.
  induction Hit as [|[point fo] pts (data & Hfo & Hdata) _ IH];
    intros st tr calls Hobs; simpl in *.
  - exists st. by rewrite app_nil_r, Z.add_0_r.
  - subst fo. simpl. rewrite process_api_response_spec by done.
    unfold observations in Hobs. simpl in Hobs.
    apply Forall_app in Hobs as [Hhd Htl].
    destruct (obs_rows_ok _ Hhd) as [rows ->].
    edestruct IH as [st' ->]; [done|]. exists st'.
    rewrite <- app_assoc. simpl. do 2 f_equal. lia.
Qed.

Lemma imap_api_iterable api (grid : list (GridPoint F)) :
  Forall (λ p, iterable p.2) (imap (λ k p, (p, api k)) grid) ↔
  ∀ k, (k < length grid)%nat → iterable (api k).
Proof.
  rewrite Forall_lookup. split.
  - intros H k Hk. destruct (lookup_lt_is_Some_2 grid k Hk) as [p Hp].
    apply (H k (p, api k)). by rewrite list_lookup_imap, Hp.
  - intros H k [p fo]. rewrite list_lookup_imap.
    destruct (grid !! k) as [p'|] eqn:Hp; simpl; [|done].
    intros [= <- <-]. simpl. apply H. by eapply lookup_lt_Some.
Qed.

(** A completed run of the generator class, in terms of its observations. *)
Lemma run_analysis_inr api analysis_id (center_lat center_lon : F) keyword n
    (distance_km : F) tr rep :
  Generator.run_analysis api analysis_id center_lat center_lon keyword n
    distance_km = (tr, inr rep) →
  1 ≤ n ∧
  Generator.generate_grid_points center_lat center_lon n distance_km
    = inr (grid_points rep) ∧
  (∀ k, (k < Z.to_nat n)%nat → iterable (api k)) ∧
  rankings rep = foldl record_ranking ∅ (run_observations api (Z.to_nat n)) ∧
  ∃ reg, register [] (run_observations api (Z.to_nat n)) = inr reg ∧
         businesses rep = reg.*2.
Proof.
  unfold Generator.run_analysis.
  destruct (Generator.generate_grid_points _ _ _ _) as [e|grid] eqn:Hgrid; [done|].
  destruct (grid_points_with_inr _ _ _ _ _ _ Hgrid) as (Hn & Hlen & Hids).
  destruct (calculate_grid_dimensions n) as [e|[rows cols]]; [done|].
  destruct (Generator.points_loop _ _ _ _ _ _) as [[tr' calls] r] eqn:Hloop.
  destruct r as [e|st]; [done|]. intros [= <- <-]. simpl.
  apply gen_points_loop_inr in Hloop as (Hit & Hreg & Hrank & _ & _).
  rewrite (run_observations_grid _ _ n) in Hreg, Hrank by done. simpl in *.
  split_and!; try done.
  - rewrite <- Hlen. by apply imap_api_iterable.
  - by eexists.
Qed.
End GeneratorRun.

Section ReportLemmas.
Context {F : Type}.
Implicit Types (api : nat → fetch_outcome F) (o : obs F).
Implicit Types (rd : gmap string (gmap Z Z)) (reg : list (string * Business F)).


Lemma obs_of_inj api p k p' k' o :
  obs_of api p k o → obs_of api p' k' o → p = p' ∧ k = k'.
Proof.
  intros (it & _ & Ho) (it' & _ & Ho'). rewrite Ho in Ho'.
  injection Ho' as Hp Hk _. lia.
Qed.

Lemma earlier_asym (p k p' k' : nat) : earlier p k p' k' → earlier p' k' p k → False.
Proof. unfold earlier. lia. Qed.

Lemma earlier_irrefl (p k : nat) : ¬ earlier p k p k.
Proof. unfold earlier. lia. Qed.

(** Last occurrence wins in the rank mapping. *)
Lemma rankings_last_wins api n (p k : nat) it b :
  (p < n)%nat → sighting api p k it b →
  (∀ k' it', (k < k')%nat → ¬ sighting api p k' it' b) →
  rank_at (foldl record_ranking ∅ (run_observations api n)) b (Z.of_nat p)
    = Some (Z.of_nat k + 1).
Proof.
  intros Hp Hs Hlast.
  destruct (run_observations_split api n p k it b Hp Hs)
    as (before & after & -> & _ & Hafter).
  apply (rank_at_last ∅ before (mkObs (Z.of_nat p) (Z.of_nat k + 1) b it) after).
  eapply Forall_impl; [exact Hafter|]. simpl.
  intros o (p' & k' & _ & Hlater & it' & Hs' & ->) [Hb Hpt]. simpl in *.
  apply Nat2Z.inj in Hpt as ->. rewrite Hb in Hs'.
  destruct Hlater as [?|[_ ?]]; [lia|]. by apply (Hlast k' it').
Qed.

(** Every rank in the mapping is the 1-based index of a sighting. *)
Lemma rankings_origin api n b pt v :
  rank_at (foldl record_ranking ∅ (run_observations api n)) b pt = Some v →
  ∃ (p k : nat) it, (p < n)%nat ∧ pt = Z.of_nat p ∧ v = Z.of_nat k + 1 ∧
                    sighting api p k it b.
Proof.
  intros [H|(o & Ho & <- & <- & <-)]%rank_at_origin; [done|].
  apply run_observations_elem in Ho as (p & k & Hp & it & Hs & ->).
  by exists p, k, it.
Qed.





Lemma registry_ids reg :
  Forall (λ kr, biz_id kr.2 = kr.1) reg → biz_id <$> reg.*2 = reg.*1.
Proof.
  induction 1 as [|[b r] reg Hbr _ IH]; [done|].
  rewrite !fmap_cons. simpl in *. by rewrite Hbr, IH.
Qed.

End ReportLemmas.

Section Totality.
Context {F : Type} `{!FloatOps F}.
Implicit Types (api : nat → fetch_outcome F).



End Totality.

Section OrderLemmas.
Context {F : Type}.
Implicit Types (pts : list (GridPoint F * fetch_outcome F)).
Implicit Types (rd : gmap string (gmap Z Z)) (reg : list (string * Business F)).

Lemma observations_cons p pts :
  observations (p :: pts) = point_observations (gp_id p.1) p.2 ++ observations pts.
Proof. done. Qed.







End OrderLemmas.

Section LoopResults.
Context {F : Type}.


End LoopResults.

Section ReportProperties.
Context {F : Type} `{!FloatOps F}.
Implicit Types (api : nat → fetch_outcome F) (rep : report F).

(** What a completed run of either file leaves in the report. *)
Lemma completed_run api analysis_id (center_lat center_lon : F) keyword n
    (distance_km : F) tr rep :
  Script.generate_analysis api center_lat center_lon keyword n distance_km
    = (tr, inr rep) ∨
  Generator.run_analysis api analysis_id center_lat center_lon keyword n
    distance_km = (tr, inr rep) →
  1 ≤ n ∧
  rankings rep = foldl record_ranking ∅ (run_observations api (Z.to_nat n)) ∧
  ∃ reg, register [] (run_observations api (Z.to_nat n)) = inr reg ∧
         businesses rep = reg.*2.
Proof.
  intros [Hrun|Hrun].
  - by apply generate_analysis_inr in Hrun as (? & _ & _ & ? & ?).
  - by apply run_analysis_inr in Hrun as (? & _ & _ & ? & ?).
Qed.

Lemma report_last_position api n rep :
  rankings rep = foldl record_ranking ∅ (run_observations api (Z.to_nat n)) →
  last_position_recorded api n rep.
Proof. intros Hr p k it b Hp Hs Hlast. rewrite Hr. by eapply rankings_last_wins. Qed.

Lemma report_ranks_positions api n rep :
  rankings rep = foldl record_ranking ∅ (run_observations api (Z.to_nat n)) →
  ranks_are_positions api n rep.
Proof. intros Hr b pt v Hv. rewrite Hr in Hv. by apply rankings_origin. Qed.

Lemma registered_ids reg os :
  register [] os = inr reg → Forall (λ kr : string * Business F, biz_id kr.2 = kr.1) reg.
Proof. intros Hreg. by apply (register_ids _ _ _ Hreg). Qed.




Lemma report_NoDup rep reg os :
  register [] os = inr reg → businesses rep = reg.*2 →
  NoDup (biz_id <$> businesses rep).
Proof.
  intros Hreg ->. rewrite (registry_ids _ (registered_ids _ _ Hreg)).
  apply (register_NoDup _ _ _ Hreg). constructor.
Qed.

End ReportProperties.

Section Equivalence.
Context {F : Type} `{!FloatOps F}.
Implicit Types (api : nat → fetch_outcome F).


End Equivalence.

(** ** Runs of the generator class that stop at a request *)

Section GeneratorAbort.
Context {F : Type} `{!FloatOps F}.
Implicit Types (api : nat → fetch_outcome F).
Implicit Types (pts : list (GridPoint F * fetch_outcome F)).

Lemma gen_points_loop_app analysis_id keyword pts1 pts2
    (st : @Generator.gen_state F) tr calls tr1 calls1 st1 :
  Generator.points_loop analysis_id keyword pts1 st tr calls
    = (tr1, calls1, inr st1) →
  Generator.points_loop analysis_id keyword (pts1 ++ pts2) st tr calls
    = Generator.points_loop analysis_id keyword pts2 st1 tr1 calls1.
Proof.
  revert st tr calls. induction pts1 as [|[point fo] pts1 IH]; intros st tr calls; simpl.
  - by intros [= <- <- <-].
  - destruct (Generator.call_dataforseo_api fo) as [e|data]; [done|].
    destruct (Generator.process_api_response data (gp_id point)) as [e|bizs]; [done|].
    apply IH.
Qed.

(** The loop stops at the first response it cannot iterate. *)
Lemma gen_points_loop_abort analysis_id keyword pts1 point fo pts2
    (st : @Generator.gen_state F) tr calls :
  Forall (λ p, iterable p.2) pts1 →
  Forall (λ o, rating (o_item o) ≠ RatingNull) (observations pts1) →
  (fo = FetchFailed →
   Generator.points_loop analysis_id keyword (pts1 ++ (point, fo) :: pts2) st tr calls
     = (tr ++ (fetch_event keyword <$> pts1 ++ [(point, fo)]),
        calls + Z.of_nat (length pts1), inl RequestException)) ∧
  (fo = FetchJson ItemsNull →
   Generator.points_loop analysis_id keyword (pts1 ++ (point, fo) :: pts2) st tr calls
     = (tr ++ (fetch_event keyword <$> pts1 ++ [(point, fo)]),
        calls + Z.of_nat (length pts1) + 1, inl TypeError)).
Proof.
  intros Hit Hwf.
  destruct (gen_points_loop_total analysis_id keyword pts1 st tr calls Hit Hwf)
    as [st1 Hloop].
  split; intros ->; rewrite (gen_points_loop_app _ _ _ _ _ _ _ _ _ _ Hloop); simpl;
    by rewrite fmap_app, app_assoc.
Qed.

Lemma take_imap_api api (grid : list (GridPoint F)) (k : nat) :
  take k (imap (λ j p, (p, api j)) grid) = imap (λ j p, (p, api j)) (take k grid).
Proof.
  apply list_eq. intros i. rewrite list_lookup_imap.
  destruct (decide (i < k)%nat) as [Hi|Hi].
  - by rewrite !lookup_take_lt, list_lookup_imap by done.
  - by rewrite !lookup_take_ge by lia.
Qed.

Lemma observations_take api (grid : list (GridPoint F)) n (k : nat) :
  gp_id <$> grid = range n → (k ≤ Z.to_nat n)%nat →
  observations (take k (imap (λ j p, (p, api j)) grid)) = run_observations api k.
Proof.
  intros Hids Hk. rewrite take_imap_api.
  apply (observations_imap api (take k grid) 0 k).
  rewrite fmap_take, Hids. unfold range. rewrite <- fmap_take, take_seq.
  by rewrite Nat.min_l by lia.
Qed.


(** The run of the class up to the first response it cannot iterate:
    the record is opened, the points up to that one are requested, the
    run is marked failed and the exception raised again. *)
Lemma run_analysis_abort api analysis_id (center_lat center_lon : F)
    keyword n (distance_km : F) (k : nat) grid rows cols :
  Generator.generate_grid_points center_lat center_lon n distance_km = inr grid →
  calculate_grid_dimensions n = inr (rows, cols) →
  (k < Z.to_nat n)%nat →
  (∀ j, (j < k)%nat → iterable (api j)) →
  Forall (λ o, rating (o_item o) ≠ RatingNull) (run_observations api k) →
  let requests := fetch_event keyword <$> take (S k) (imap (λ j p, (p, api j)) grid) in
  (api k = FetchFailed →
   Generator.run_analysis api analysis_id center_lat center_lon keyword n
     distance_km
   = (EvDbInsertAnalysis rows cols :: requests ++
        [EvDbMarkFailed RequestException (Z.of_nat k)],
      inl RequestException)) ∧
  (api k = FetchJson ItemsNull →
   Generator.run_analysis api analysis_id center_lat center_lon keyword n
     distance_km
   = (EvDbInsertAnalysis rows cols :: requests ++
        [EvDbMarkFailed TypeError (Z.of_nat k + 1)],
      inl TypeError)).
Proof.
  intros Hgrid Hdim Hk Hit Hwf requests.
  destruct (grid_points_with_inr _ _ _ _ _ _ Hgrid) as (Hn & Hlen & Hids).
  destruct (lookup_lt_is_Some_2 grid k ltac:(lia)) as [gk Hgk].
  assert (imap (λ j p, (p, api j)) grid !! k = Some (gk, api k)) as Hpk
    by (by rewrite list_lookup_imap, Hgk).
  set (pts := imap (λ j p, (p, api j)) grid) in *.
  assert (Forall (λ p, iterable p.2) (take k pts)) as Hit1.
  { apply Forall_lookup. intros i [p fo] [Hi Hlt]%lookup_take_Some. unfold pts in Hi.
    rewrite list_lookup_imap in Hi. destruct (grid !! i); simpl in Hi; [|done].
    injection Hi as <- <-. by apply Hit. }
  assert (Forall (λ o, rating (o_item o) ≠ RatingNull) (observations (take k pts)))
    as Hwf1.
  { unfold pts. by rewrite (observations_take api grid n k) by (done || lia). }
  destruct (gen_points_loop_abort analysis_id keyword (take k pts) gk (api k)
              (drop (S k) pts) (Generator.mkState [] [])
              [EvDbInsertAnalysis rows cols] 0 Hit1 Hwf1) as [Hfail Hnull].
  rewrite (take_drop_middle pts k _ Hpk) in Hfail, Hnull.
  assert (length (take k pts) = k) as Hlenk.
  { rewrite length_take. unfold pts. rewrite length_imap. lia. }
  unfold requests. rewrite (take_S_r pts k _ Hpk).
  unfold Generator.run_analysis. rewrite Hgrid, Hdim. fold pts.
  split; intros Hk'.
  - rewrite (Hfail Hk'), Hlenk. simpl. by rewrite Z.add_0_l.
  - rewrite (Hnull Hk'), Hlenk. simpl. by rewrite Z.add_0_l.
Qed.
End GeneratorAbort.

(** * The claims *)



Section GridClaims.
Context {F : Type} `{!FloatOps F}.

End GridClaims.



Section FailureClaims.
Context {F : Type} `{!FloatOps F}.
Implicit Types (api : nat → fetch_outcome F).



End FailureClaims.





Section OrderClaims.
Context {F : Type}.
Implicit Types (pts : list (GridPoint F * fetch_outcome F)).

End OrderClaims.


(** C5, as stated, fails when a list yields the same business twice: the
    entry at index 0 yields the usable id "A", and the rank recorded for
    "A" at point 0 is 2, the position of the later entry, not 0 + 1. *)
Lemma duplicate_id_rank_overwritten :
  ∃ tr rep,
    Script.generate_analysis duplicate_api q0 q0 "cafe" 1 q1 = (tr, inr rep) ∧
    sighting duplicate_api 0 0 (entry "A" "first") "A" ∧
    rank_at (rankings rep) "A" 0 = Some 2.
Proof.
  eexists _, _. split_and!; [by vm_compute| |by vm_compute].
  by eexists.
Qed.

Section AggregationClaims.
Context {F : Type} `{!FloatOps F}.
Implicit Types (api : nat → fetch_outcome F) (rep : report F).

(** C5 (amended).  In a completed run of [src/generate_analysis.py], an
    entry at 0-based list index [k] that yields a usable business id is
    recorded with rank [k + 1], however many entries before it were
    skipped, unless a later entry of the same list yields the same id
    (then the later position is recorded); and every rank in the report
    is the 1-based index of an entry yielding that business in the list
    of that point: positions are never renumbered or re-sorted. *)
Theorem rank_is_list_position api (center_lat center_lon : F) keyword n
    (distance_km : F) tr rep :
  Script.generate_analysis api center_lat center_lon keyword n distance_km
    = (tr, inr rep) →
  last_position_recorded api n rep ∧ ranks_are_positions api n rep.
Proof.
  intros Hrun.
  destruct (completed_run api EmptyString _ _ _ _ _ _ _ (or_introl Hrun))
    as (_ & Hrank & _).
  split; [by apply report_last_position|by apply report_ranks_positions].
Qed.



End AggregationClaims.

Lemma mixed_run_completes :
  Script.generate_analysis mixed_api q0 q0 "cafe" 2 q1
    = (mixed_trace, inr mixed_report).
Proof. by vm_compute. Qed.

Lemma duplicate_run_completes :
  Script.generate_analysis duplicate_api q0 q0 "cafe" 1 q1
    = (duplicate_trace, inr duplicate_report).
Proof. by vm_compute. Qed.

Lemma rank_is_list_position_witness :
  Script.generate_analysis mixed_api q0 q0 "cafe" 2 q1
    = (mixed_trace, inr mixed_report) ∧
  last_position_recorded mixed_api 2 mixed_report ∧
  ranks_are_positions mixed_api 2 mixed_report.
Proof.
  split; [exact mixed_run_completes|].
  exact (rank_is_list_position mixed_api q0 q0 "cafe" 2 q1 mixed_trace mixed_report
           mixed_run_completes).
Defined.



Lemma duplicate_first_sighting : first_sighting duplicate_api 0 0 "A".
Proof. intros p' k' it' [?|[_ ?]]; lia. Qed.




Section EquivalenceClaims.
Context {F : Type} `{!FloatOps F}.
Implicit Types (api : nat → fetch_outcome F).

End EquivalenceClaims.

Lemma mixed_api_iterable k : (k < Z.to_nat 2)%nat → iterable (mixed_api k).
Proof. intros _. destruct k; by eexists. Qed.

Lemma mixed_api_well_formed : ratings_well_formed mixed_api 2.
Proof. unfold ratings_well_formed. vm_compute. by repeat constructor. Qed.


(** * Further properties of the code *)

(** ** Grid shape *)






Section GridStructureProofs.
Context {F : Type} `{!FloatOps F}.


End GridStructureProofs.


(** ** Invariants of the report *)

Section ReportInvariants.
Context {F : Type} `{!FloatOps F}.
Implicit Types (api : nat → fetch_outcome F) (rep : report F).
Implicit Types (os : list (obs F)) (rd : gmap string (gmap Z Z)).

Lemma rank_at_mono rd os b p :
  is_Some (rank_at rd b p) → is_Some (rank_at (foldl record_ranking rd os) b p).
Proof.
  revert rd. induction os as [|o os IH]; intros rd Hrd; simpl; [done|].
  apply IH. unfold record_ranking. rewrite rank_at_store. by case_decide.
Qed.

Lemma rank_at_is_Some rd os o :
  o ∈ os → is_Some (rank_at (foldl record_ranking rd os) (o_biz o) (o_point o)).
Proof.
  revert rd. induction os as [|o' os IH]; intros rd Ho; simpl.
  - by apply elem_of_nil in Ho.
  - apply elem_of_cons in Ho as [<- | Ho]; [|by apply IH].
    apply rank_at_mono. unfold record_ranking. rewrite rank_at_store.
    by rewrite decide_True.
Qed.

Lemma usable_id_nonempty v b : usable_id v = Some b → b ≠ EmptyString.
Proof. destruct v as [s|]; simpl; [|done]. case_decide; [done|]. by intros [= <-]. Qed.

Lemma sighting_nonempty api p k (it : item F) b :
  sighting api p k it b → b ≠ EmptyString.
Proof. intros (_ & _ & _ & Hb). by apply usable_id_nonempty in Hb. Qed.

Lemma elem_of_range n k : k ∈ range n ↔ 0 ≤ k < n.
Proof.
  unfold range. rewrite list_elem_of_fmap. setoid_rewrite elem_of_seq. split.
  - intros (i & -> & Hi). lia.
  - intros Hk. exists (Z.to_nat k). lia.
Qed.

(** The grid of a completed run has the ids [0 .. n-1]. *)
Lemma completed_run_grid api analysis_id (center_lat center_lon : F) keyword n
    (distance_km : F) tr rep :
  Script.generate_analysis api center_lat center_lon keyword n distance_km
    = (tr, inr rep) ∨
  Generator.run_analysis api analysis_id center_lat center_lon keyword n
    distance_km = (tr, inr rep) →
  gp_id <$> grid_points rep = range n.
Proof.
  intros [Hrun|Hrun].
  - apply generate_analysis_inr in Hrun as (_ & Hgrid & _).
    by apply grid_points_with_inr in Hgrid as (_ & _ & ?).
  - apply run_analysis_inr in Hrun as (_ & Hgrid & _).
    by apply grid_points_with_inr in Hgrid as (_ & _ & ?).
Qed.

Lemma registry_keys_ranked api n rep reg :
  rankings rep = foldl record_ranking ∅ (run_observations api (Z.to_nat n)) →
  register [] (run_observations api (Z.to_nat n)) = inr reg →
  businesses rep = reg.*2 →
  ∀ b, b ∈ biz_id <$> businesses rep ↔ is_Some (rankings rep !! b).
Proof.
  intros Hrank Hreg Hbiz b.
  rewrite Hbiz, (registry_ids _ (registered_ids _ _ Hreg)), Hrank.
  rewrite (register_keys _ _ _ b Hreg), rankings_keys, lookup_empty.
  split; (intros [H|H]; [|by right]).
  - by apply elem_of_nil in H.
  - by destruct H.
Qed.

(** X4.  In a completed run of either file the registry and the rank
    mapping have the same business ids, none of them empty, and every
    business of the mapping has at least one ranked point. *)
Theorem report_keys_agree api analysis_id (center_lat center_lon : F) keyword n
    (distance_km : F) tr rep :
  Script.generate_analysis api center_lat center_lon keyword n distance_km
    = (tr, inr rep) ∨
  Generator.run_analysis api analysis_id center_lat center_lon keyword n
    distance_km = (tr, inr rep) →
  (∀ b, b ∈ biz_id <$> businesses rep ↔ is_Some (rankings rep !! b)) ∧
  (∀ b m, rankings rep !! b = Some m →
     b ≠ EmptyString ∧ ∃ pt v, m !! pt = Some v).
Proof.
  intros (_ & Hrank & reg & Hreg & Hbiz)%completed_run. split.
  - by eapply registry_keys_ranked.
  - intros b m Hm.
    assert (is_Some (rankings rep !! b)) as Hsome by (by rewrite Hm).
    rewrite Hrank in Hsome.
    apply rankings_keys in Hsome as [Hsome|(o & Ho & <-)];
      [rewrite lookup_empty in Hsome; by destruct Hsome|].
    split.
    + apply run_observations_elem in Ho as (p & k & _ & it & Hs & _).
      by eapply sighting_nonempty.
    + pose proof (rank_at_is_Some ∅ _ o Ho) as [v Hv].
      rewrite <- Hrank in Hv. unfold rank_at in Hv. rewrite Hm in Hv.
      by exists (o_point o), v.
Qed.

(** X5.  In a completed run of either file every entry of the rank
    mapping refers to a point of the report's grid, and its position
    lies between 1 and the length of the list returned for that point. *)
Theorem rank_entries_in_bounds api analysis_id (center_lat center_lon : F)
    keyword n (distance_km : F) tr rep b pt v :
  Script.generate_analysis api center_lat center_lon keyword n distance_km
    = (tr, inr rep) ∨
  Generator.run_analysis api analysis_id center_lat center_lon keyword n
    distance_km = (tr, inr rep) →
  rank_at (rankings rep) b pt = Some v →
  pt ∈ gp_id <$> grid_points rep ∧
  ∃ items, Script.call_dataforseo_api (api (Z.to_nat pt)) = Some items ∧
           1 ≤ v ≤ Z.of_nat (length items).
Proof.
  intros Hrun Hv. pose proof (completed_run_grid _ _ _ _ _ _ _ _ _ Hrun) as Hgrid.
  apply completed_run in Hrun as (_ & Hrank & _).
  rewrite Hrank in Hv.
  apply rankings_origin in Hv as (p & k & it & Hp & -> & -> & items & Hcall & Hk & _).
  split.
  - rewrite Hgrid. apply elem_of_range. lia.
  - exists items. rewrite Nat2Z.id. split; [done|].
    apply lookup_lt_Some in Hk. lia.
Qed.
End ReportInvariants.

Lemma report_keys_agree_witness :
  (∀ b, b ∈ biz_id <$> businesses mixed_report ↔
        is_Some (rankings mixed_report !! b)) ∧
  (∀ b m, rankings mixed_report !! b = Some m →
     b ≠ EmptyString ∧ ∃ pt v, m !! pt = Some v).
Proof.
  exact (report_keys_agree mixed_api "run" q0 q0 "cafe" 2 q1
           mixed_trace mixed_report (or_introl mixed_run_completes)).
Defined.

Lemma mixed_rank_B_1 : rank_at (rankings mixed_report) "B" 1 = Some 1.
Proof. by vm_compute. Qed.

Lemma rank_entries_in_bounds_witness :
  1 ∈ gp_id <$> grid_points mixed_report ∧
  ∃ items, Script.call_dataforseo_api (mixed_api (Z.to_nat 1)) = Some items ∧
           1 ≤ 1 ≤ Z.of_nat (length items).
Proof.
  exact (rank_entries_in_bounds mixed_api "run" q0 q0 "cafe" 2 q1
           mixed_trace mixed_report "B" 1 1
           (or_introl mixed_run_completes) mixed_rank_B_1).
Defined.

(** ** Processing order and completion *)

Section ProcessingOrder.
Context {F : Type} `{!FloatOps F}.
Implicit Types (api : nat → fetch_outcome F) (rep : report F).
Implicit Types (os : list (obs F)) (o : obs F).

Lemma earlier_trans (p1 k1 p2 k2 p3 k3 : nat) :
  earlier p1 k1 p2 k2 → earlier p2 k2 p3 k3 → earlier p1 k1 p3 k3.
Proof. unfold earlier. lia. Qed.

Lemma earlier_total (p1 k1 p2 k2 : nat) :
  earlier p1 k1 p2 k2 ∨ (p1 = p2 ∧ k1 = k2) ∨ earlier p2 k2 p1 k1.
Proof. unfold earlier. lia. Qed.

Lemma sighting_obs_of api p k (it : item F) b :
  sighting api p k it b → obs_of api p k (mkObs (Z.of_nat p) (Z.of_nat k + 1) b it).
Proof. intros Hs. by exists it. Qed.

(** Any split of the observations of a run around one of them puts the
    earlier ones before it and the later ones after it. *)
Lemma run_observations_split_at api n os1 o os2 :
  run_observations api n = os1 ++ o :: os2 →
  ∃ p k, (p < n)%nat ∧ obs_of api p k o ∧
    Forall (λ o', ∃ p' k', earlier p' k' p k ∧ obs_of api p' k' o') os1 ∧
    Forall (λ o', ∃ p' k', (p' < n)%nat ∧ earlier p k p' k' ∧ obs_of api p' k' o') os2.
Proof.
  intros Heq.
  assert (o ∈ run_observations api n) as Ho
    by (rewrite Heq; apply elem_of_app; right; left).
  apply run_observations_elem in Ho as (p & k & Hp & Hobs).
  exists p, k. split; [done|]. split; [done|].
  pose proof Hobs as (it & Hs & Ho).
  destruct (run_observations_split api n p k it (o_biz o) Hp Hs)
    as (before & after & Heq' & Hbefore & Hafter).
  rewrite <- Ho, Heq in Heq'.
  assert (∀ l, ¬ (o ∈ l ∧
            Forall (λ o', ∃ p' k', earlier p' k' p k ∧ obs_of api p' k' o') l))
    as Hnot_before.
  { intros l [Hin Hl]. rewrite Forall_forall in Hl.
    destruct (Hl _ Hin) as (p' & k' & He & Hobs').
    destruct (obs_of_inj _ _ _ _ _ _ Hobs Hobs') as [<- <-].
    by apply (earlier_irrefl p k). }
  assert (∀ l, ¬ (o ∈ l ∧
            Forall (λ o', ∃ p' k', (p' < n)%nat ∧ earlier p k p' k' ∧
                                   obs_of api p' k' o') l))
    as Hnot_after.
  { intros l [Hin Hl]. rewrite Forall_forall in Hl.
    destruct (Hl _ Hin) as (p' & k' & _ & He & Hobs').
    destruct (obs_of_inj _ _ _ _ _ _ Hobs Hobs') as [<- <-].
    by apply (earlier_irrefl p k). }
  apply app_eq_app in Heq' as [l [[-> Hl]|[-> Hl]]].
  - destruct l as [|o' l]; simpl in Hl.
    + injection Hl as <-. by rewrite app_nil_r.
    + injection Hl as <- ->. destruct (Hnot_after (l ++ o :: os2)).
      split; [|done]. apply elem_of_app. right. left.
  - destruct l as [|o' l]; simpl in Hl.
    + injection Hl as <-. by rewrite app_nil_r in Hbefore.
    + injection Hl as <- ->. destruct (Hnot_before (os1 ++ o :: l)).
      split; [|done]. apply elem_of_app. right. left.
Qed.

Lemma sighting_in_run api n p k (it : item F) b :
  (p < n)%nat → sighting api p k it b →
  mkObs (Z.of_nat p) (Z.of_nat k + 1) b it ∈ run_observations api n.
Proof.
  intros Hp Hs.
  destruct (run_observations_split api n p k it b Hp Hs) as (before & after & -> & _).
  apply elem_of_app. right. left.
Qed.

(** The first observation of a business in the list is its first sighting. *)
Lemma split_first_sighting api n os1 o os2 p k :
  run_observations api n = os1 ++ o :: os2 →
  Forall (λ o', o_biz o' ≠ o_biz o) os1 →
  obs_of api p k o → first_sighting api p k (o_biz o).
Proof.
  intros Heq Hos1 Hobs p' k' it' Hearlier Hs'.
  destruct (run_observations_split_at api n os1 o os2 Heq)
    as (p0 & k0 & Hp0 & Hobs0 & Hbefore & Hafter).
  destruct (obs_of_inj _ _ _ _ _ _ Hobs Hobs0) as [<- <-].
  assert (p' < n)%nat as Hp' by (destruct Hearlier; lia).
  pose proof (sighting_in_run api n p' k' it' _ Hp' Hs') as Hin.
  pose proof (sighting_obs_of _ _ _ _ _ Hs') as Hobs'.
  rewrite Heq in Hin.
  apply elem_of_app in Hin as [Hin|[Hin|Hin]%elem_of_cons].
  - rewrite Forall_forall in Hos1. by apply (Hos1 _ Hin).
  - rewrite Hin in Hobs'.
    destruct (obs_of_inj _ _ _ _ _ _ Hobs Hobs') as [<- <-].
    by apply (earlier_irrefl p k).
  - rewrite Forall_forall in Hafter.
    destruct (Hafter _ Hin) as (p2 & k2 & _ & Hlater & Hobs2).
    destruct (obs_of_inj _ _ _ _ _ _ Hobs' Hobs2) as [<- <-].
    by apply (earlier_asym p k p' k').
Qed.

Lemma register_split os1 o os2 (reg : list (string * Business F)) :
  register [] (os1 ++ o :: os2) = inr reg →
  Forall (λ o', o_biz o' ≠ o_biz o) os1 →
  ∃ reg1 r rest,
    register [] os1 = inr reg1 ∧ reg = reg1 ++ (o_biz o, r) :: rest ∧
    mk_business (o_biz o) (o_item o) = inr r.
Proof.
  intros Hreg Hos1. rewrite register_app in Hreg.
  destruct (register [] os1) as [e|reg1] eqn:H1; simpl in Hreg; [done|].
  assert (o_biz o ∉ reg1.*1) as Hkey.
  { rewrite (register_keys _ _ _ _ H1). intros [?%elem_of_nil|(o' & Ho' & Heq)]; [done|].
    rewrite Forall_forall in Hos1. by apply (Hos1 o'). }
  unfold Script.store_business in Hreg. rewrite decide_False in Hreg by done.
  destruct (mk_business _ _) as [e|r]; simpl in Hreg; [done|].
  apply register_prefix in Hreg as [rest ->].
  exists reg1, r, rest. split_and!; try done. by rewrite <- app_assoc.
Qed.

(** X6.  In a completed run of either file the ['businesses'] list is in
    first-seen order: a business listed before another one has a
    sighting earlier than every sighting of the other. *)
Theorem businesses_in_first_seen_order api analysis_id (center_lat center_lon : F)
    keyword n (distance_km : F) tr rep (i j : nat) r1 r2 :
  Script.generate_analysis api center_lat center_lon keyword n distance_km
    = (tr, inr rep) ∨
  Generator.run_analysis api analysis_id center_lat center_lon keyword n
    distance_km = (tr, inr rep) →
  (i < j)%nat →
  businesses rep !! i = Some r1 → businesses rep !! j = Some r2 →
  ∃ (p1 k1 : nat) it1,
    (p1 < Z.to_nat n)%nat ∧ sighting api p1 k1 it1 (biz_id r1) ∧
    ∀ (p2 k2 : nat) it2, sighting api p2 k2 it2 (biz_id r2) → earlier p1 k1 p2 k2.
Proof.
  intros (_ & _ & reg & Hreg & Hbiz)%completed_run Hij Hi Hj.
  pose proof (registered_ids _ _ Hreg) as Hids. rewrite Forall_lookup in Hids.
  assert (NoDup reg.*1) as Hnd by (apply (register_NoDup _ _ _ Hreg); constructor).
  rewrite Hbiz, list_lookup_fmap in Hi, Hj.
  destruct (reg !! i) as [[b1 r1']|] eqn:Hri; simpl in Hi; [|done].
  destruct (reg !! j) as [[b2 r2']|] eqn:Hrj; simpl in Hj; [|done].
  injection Hi as ->. injection Hj as ->.
  pose proof (Hids _ _ Hri) as Hb1. pose proof (Hids _ _ Hrj) as Hb2. simpl in *.
  destruct (register_origin _ _ _ b2 r2 Hreg)
    as [?%elem_of_nil|(os1 & o & os2 & Heq & Hbo & _ & Hos1 & _)];
    [by eapply list_elem_of_lookup_2|done|].
  rewrite <- Hbo in Hos1. rewrite Heq in Hreg.
  destruct (register_split _ _ _ _ Hreg Hos1) as (reg1 & r & rest & Hreg1 & Hsplit & _).
  destruct (run_observations_split_at api _ os1 o os2 Heq)
    as (p2 & k2 & Hp2 & Hobs2 & Hbefore & _).
  pose proof (split_first_sighting api _ os1 o os2 p2 k2 Heq Hos1 Hobs2) as Hfirst.
  (* the record of [b2] sits right after the registry of [os1] *)
  assert (j = length reg1) as ->.
  { apply (NoDup_lookup reg.*1 _ _ b2 Hnd).
    - by rewrite list_lookup_fmap, Hrj.
    - rewrite Hsplit, list_lookup_fmap, lookup_app_r, Nat.sub_diag by lia.
      simpl. by rewrite Hbo. }
  assert (b1 ∈ reg1.*1) as Hin1.
  { apply list_elem_of_fmap. exists (b1, r1). split; [done|].
    apply list_elem_of_lookup. exists i.
    rewrite Hsplit, lookup_app_l in Hri by lia. done. }
  apply (register_keys _ _ _ _ Hreg1) in Hin1 as [?%elem_of_nil|(o1 & Ho1 & Hbo1)]; [done|].
  rewrite Forall_forall in Hbefore.
  destruct (Hbefore _ Ho1) as (p1 & k1 & Hearlier & it1 & Hs1 & _).
  exists p1, k1, it1. rewrite Hb1, <- Hbo1. split_and!; [destruct Hearlier; lia|done|].
  intros p k it Hs. rewrite Hb2, <- Hbo in Hs.
  destruct (earlier_total p k p2 k2) as [He|[[-> ->]|He]].
  - by destruct (Hfirst _ _ _ He Hs).
  - done.
  - by eapply earlier_trans.
Qed.
End ProcessingOrder.

(** ** When a run completes *)

Section Completion.
Context {F : Type} `{!FloatOps F}.
Implicit Types (api : nat → fetch_outcome F) (rep : report F).
Implicit Types (os : list (obs F)) (o : obs F).




Lemma ratings_well_formed_sightings api n :
  ratings_well_formed api n ↔
  ∀ (p k : nat) (it : item F) b,
    (p < Z.to_nat n)%nat → sighting api p k it b → rating it ≠ RatingNull.
Proof.
  unfold ratings_well_formed. rewrite Forall_forall. split.
  - intros H p k it b Hp Hs. by apply (H _ (sighting_in_run api _ p k it b Hp Hs)).
  - intros H o (p & k & Hp & it & Hs & ->)%run_observations_elem. simpl. by eapply H.
Qed.


Lemma obs_rows_ratings os rows :
  obs_rows os = inr rows → Forall (λ o, rating (o_item o) ≠ RatingNull) os.
Proof.
  revert rows. induction os as [|o os IH]; intros rows; simpl; [by constructor|].
  unfold obs_row at 1. destruct (rating (o_item o)) eqn:Hr; simpl; [|done|];
    (destruct (obs_rows os) as [e|rs]; simpl; [done|]); intros _;
    (constructor; [by rewrite Hr|by eapply IH]).
Qed.

Lemma gen_points_loop_ratings analysis_id keyword
    (pts : list (GridPoint F * fetch_outcome F)) (st : @Generator.gen_state F)
    tr calls tr' calls' st' :
  Generator.points_loop analysis_id keyword pts st tr calls
    = (tr', calls', inr st') →
  Forall (λ o, rating (o_item o) ≠ RatingNull) (observations pts).
Proof.
  revert st tr calls. induction pts as [|[point fo] pts IH]; intros st tr calls Hloop.
  - constructor.
  - rewrite observations_cons. simpl in *.
    destruct fo as [|data]; simpl in Hloop; [done|].
    assert (data = ItemsNull ∨ data ≠ ItemsNull) as [-> | Hdata]
      by (destruct data; (by left) || (by right)); [done|].
    rewrite process_api_response_spec in Hloop by done.
    destruct (obs_rows _) as [e|rows] eqn:Hrows; [done|].
    apply IH in Hloop. apply Forall_app. split; [|done].
    by eapply obs_rows_ratings.
Qed.

(** X8.  Once the grid is generated, the request loop of [run_analysis]
    in the generator class runs to its end without an exception exactly
    when every request succeeds with a response it can iterate and no
    identified entry at all has a [null] rating.  The statement is about
    the loop alone, whatever was logged before it. *)
Theorem generator_loop_completes_iff api analysis_id (center_lat center_lon : F)
    keyword n (distance_km : F) grid tr0 :
  Generator.generate_grid_points center_lat center_lon n distance_km = inr grid →
  ((∃ tr calls st,
      Generator.points_loop analysis_id keyword (imap (λ k p, (p, api k)) grid)
        (Generator.mkState [] []) tr0 0 = (tr, calls, inr st)) ↔
   (∀ k, (k < Z.to_nat n)%nat → iterable (api k)) ∧
   ∀ (p k : nat) it b,
     (p < Z.to_nat n)%nat → sighting api p k it b → rating it ≠ RatingNull).
Proof.
  intros Hgrid.
  destruct (grid_points_with_inr _ _ _ _ _ _ Hgrid) as (Hn & Hlen & Hids).
  rewrite <- ratings_well_formed_sightings. unfold ratings_well_formed.
  rewrite <- (run_observations_grid api grid n Hids), <- Hlen.
  rewrite <- imap_api_iterable. split.
  - intros (tr & calls & st & Hloop). split.
    + by apply gen_points_loop_inr in Hloop as [? _].
    + by apply gen_points_loop_ratings in Hloop.
  - intros [Hit Hwf].
    destruct (gen_points_loop_total analysis_id keyword _ (Generator.mkState [] [])
                tr0 0 Hit Hwf) as [st Hloop].
    by eexists _, _, st.
Qed.
End Completion.

Lemma businesses_in_first_seen_order_witness :
  ∃ (p1 k1 : nat) it1,
    (p1 < Z.to_nat 2)%nat ∧ sighting mixed_api p1 k1 it1 "A" ∧
    ∀ (p2 k2 : nat) it2, sighting mixed_api p2 k2 it2 "B" → earlier p1 k1 p2 k2.
Proof.
  apply (businesses_in_first_seen_order mixed_api "run" q0 q0 "cafe" 2 q1
           mixed_trace mixed_report 0 1
           (mkBusiness "A" (Some "a") None None None)
           (mkBusiness "B" (Some "b") None None None)
           (or_introl mixed_run_completes)).
  - lia.
  - reflexivity.
  - reflexivity.
Defined.



Lemma failing_grid_computed :
  Generator.generate_grid_points q0 q0 2 q1 = inr failing_grid.
Proof. by vm_compute. Qed.

Lemma generator_loop_completes_iff_witness :
  ∃ tr calls st,
    Generator.points_loop "run" "cafe" (imap (λ k p, (p, mixed_api k)) failing_grid)
      (Generator.mkState [] []) [EvDbInsertAnalysis 1 2] 0 = (tr, calls, inr st).
Proof.
  apply (proj2 (generator_loop_completes_iff mixed_api "run" q0 q0 "cafe" 2 q1
                  failing_grid [EvDbInsertAnalysis 1 2] failing_grid_computed)).
  split; [exact mixed_api_iterable|].
  apply ratings_well_formed_sightings. exact mixed_api_well_formed.
Defined.

(** ** The run of the generator class, request by request *)

Section GeneratorTrace.
Context {F : Type} `{!FloatOps F}.
Implicit Types (api : nat → fetch_outcome F).
Implicit Types (pts : list (GridPoint F * fetch_outcome F)).

(** X9.  When the [k]-th request is the first one that fails (or the
    first whose ['items'] is [null]), every earlier request having
    returned a response that can be iterated and whose identified
    entries have no [null] rating, the run of the generator class has
    opened the database record, made exactly the requests of points
    [0 .. k] in grid order and nothing after them, and marks the run
    failed with the number of responses received: [k] for a failed
    request ([RequestException]), [k + 1] for [null] items ([TypeError]). *)
Theorem generator_abort_trace api analysis_id (center_lat center_lon : F)
    keyword n (distance_km : F) (k : nat) grid rows cols :
  Generator.generate_grid_points center_lat center_lon n distance_km = inr grid →
  calculate_grid_dimensions n = inr (rows, cols) →
  (k < Z.to_nat n)%nat →
  (∀ j, (j < k)%nat → iterable (api j)) →
  (∀ (p j : nat) it b, (p < k)%nat → sighting api p j it b → rating it ≠ RatingNull) →
  let requests := fetch_event keyword <$> take (S k) (imap (λ j p, (p, api j)) grid) in
  (api k = FetchFailed →
   Generator.run_analysis api analysis_id center_lat center_lon keyword n
     distance_km
   = (EvDbInsertAnalysis rows cols :: requests ++
        [EvDbMarkFailed RequestException (Z.of_nat k)],
      inl RequestException)) ∧
  (api k = FetchJson ItemsNull →
   Generator.run_analysis api analysis_id center_lat center_lon keyword n
     distance_km
   = (EvDbInsertAnalysis rows cols :: requests ++
        [EvDbMarkFailed TypeError (Z.of_nat k + 1)],
      inl TypeError)).
Proof.
  intros Hgrid Hdim Hk Hit Hwf requests.
  apply (run_analysis_abort api analysis_id center_lat center_lon keyword n
           distance_km k grid rows cols Hgrid Hdim Hk Hit).
  apply Forall_forall. intros o (p & j & Hp & it & Hs & ->)%run_observations_elem.
  simpl. by eapply Hwf.
Qed.
End GeneratorTrace.

Lemma late_grid_computed :
  Generator.generate_grid_points q0 q0 3 q1 = inr late_grid.
Proof. by vm_compute. Qed.

Lemma late_first_response_usable (api : nat → fetch_outcome Q) :
  api 0%nat = FetchJson (Items [entry "A" "a"]) →
  (∀ j, (j < 1)%nat → iterable (api j)) ∧
  ∀ (p j : nat) it b, (p < 1)%nat → sighting api p j it b → rating it ≠ RatingNull.
Proof.
  intros H0. split.
  - intros j Hj. assert (j = 0%nat) as -> by lia. rewrite H0.
    eexists. split; [reflexivity|done].
  - intros p j it b Hp (items & Hcall & Hj & _). assert (p = 0%nat) as -> by lia.
    rewrite H0 in Hcall. injection Hcall as <-.
    destruct j as [|j]; simpl in Hj; [|by destruct j].
    by injection Hj as <-.
Qed.

Lemma generator_abort_trace_witness :
  Generator.run_analysis late_failure_api "run" q0 q0 "cafe" 3 q1
  = (EvDbInsertAnalysis 1 3 ::
       (fetch_event "cafe" <$> take 2 (imap (λ j p, (p, late_failure_api j)) late_grid))
       ++ [EvDbMarkFailed RequestException 1],
     inl RequestException) ∧
  Generator.run_analysis late_null_api "run" q0 q0 "cafe" 3 q1
  = (EvDbInsertAnalysis 1 3 ::
       (fetch_event "cafe" <$> take 2 (imap (λ j p, (p, late_null_api j)) late_grid))
       ++ [EvDbMarkFailed TypeError 2],
     inl TypeError).
Proof.
  split.
  - apply (generator_abort_trace late_failure_api "run" q0 q0 "cafe" 3 q1 1
             late_grid 1 3 late_grid_computed eq_refl);
      [vm_compute; lia | apply late_first_response_usable..| ]; reflexivity.
  - apply (generator_abort_trace late_null_api "run" q0 q0 "cafe" 3 q1 1
             late_grid 1 3 late_grid_computed eq_refl);
      [vm_compute; lia | apply late_first_response_usable..| ]; reflexivity.
Defined.

(** ** The rows written to [business_rankings] *)

Section GeneratorRows.
Context {F : Type}.
Implicit Types (pts : list (GridPoint F * fetch_outcome F)).
Local Abbreviation grow := (@Generator.ranking_row F).




End GeneratorRows.



Section ScriptRows.
Context {F : Type} `{!FloatOps F}.
Implicit Types (api : nat → fetch_outcome F) (rep : report F).

Lemma elem_of_ranking_inserts aid rep (row : @ScriptStore.ranking_insert F) :
  row ∈ ScriptStore.ranking_inserts aid rep ↔
  ∃ r gp v,
    r ∈ businesses rep ∧ gp ∈ grid_points rep ∧
    rank_at (rankings rep) (biz_id r) (gp_id gp) = Some v ∧ v ≠ 0 ∧
    row = ScriptStore.mkInsert aid (biz_id r) (biz_title r) (biz_address r)
            (biz_rating r) (biz_reviews r) (gp_id gp) (gp_lat gp) (gp_lon gp) v.
Proof.
  unfold ScriptStore.ranking_inserts, ScriptStore.business_inserts.
  rewrite list_elem_of_In, in_flat_map. setoid_rewrite <- list_elem_of_In.
  setoid_rewrite list_elem_of_omap. unfold ScriptStore.point_insert, rank_at. split.
  - intros (r & Hr & gp & Hgp & Hrow). exists r, gp.
    destruct (rankings rep !! biz_id r) as [m|]; simpl in *;
      [|by rewrite lookup_empty in Hrow].
    destruct (m !! gp_id gp) as [v|]; [|done]. case_decide; [done|].
    injection Hrow as <-. by exists v.
  - intros (r & gp & v & Hr & Hgp & Hv & Hv0 & ->). exists r. split; [done|].
    exists gp. split; [done|].
    destruct (rankings rep !! biz_id r) as [m|]; simpl in *; [|done].
    rewrite Hv. by rewrite decide_False.
Qed.

(** X11.  After a completed run of the script, [save_to_mysql] inserts a
    row for every entry of the rank mapping and for nothing else: no
    recorded rank is dropped by the [if position] test or missed by the
    loops over businesses and grid points, and each row carries the
    registry's fields of the business and the coordinates of the point. *)
Theorem save_to_mysql_rows api (center_lat center_lon : F) keyword n
    (distance_km : F) tr rep aid :
  Script.generate_analysis api center_lat center_lon keyword n distance_km
    = (tr, inr rep) →
  (∀ b pt v,
     rank_at (rankings rep) b pt = Some v ↔
     ∃ row, row ∈ ScriptStore.ranking_inserts aid rep ∧
            ScriptStore.business_id row = b ∧
            ScriptStore.grid_point_id row = pt ∧
            ScriptStore.ranking_position row = v) ∧
  (∀ row, row ∈ ScriptStore.ranking_inserts aid rep →
     ScriptStore.analysis_id row = aid ∧
     ∃ r gp,
       r ∈ businesses rep ∧ gp ∈ grid_points rep ∧
       ScriptStore.business_id row = biz_id r ∧
       ScriptStore.business_name row = biz_title r ∧
       ScriptStore.business_address row = biz_address r ∧
       ScriptStore.business_rating row = biz_rating r ∧
       ScriptStore.business_reviews row = biz_reviews r ∧
       ScriptStore.grid_point_id row = gp_id gp ∧
       ScriptStore.grid_lat row = gp_lat gp ∧
       ScriptStore.grid_lon row = gp_lon gp).
Proof.
  intros Hrun.
  pose proof (completed_run_grid api EmptyString _ _ _ _ _ _ _ (or_introl Hrun)) as Hgrid.
  destruct (completed_run api EmptyString _ _ _ _ _ _ _ (or_introl Hrun))
    as (_ & Hrank & reg & Hreg & Hbiz).
  split.
  - intros b pt v. split.
    + intros Hv.
      assert (b ∈ biz_id <$> businesses rep) as Hb.
      { apply (registry_keys_ranked api n rep reg Hrank Hreg Hbiz).
        unfold rank_at in Hv. by destruct (rankings rep !! b). }
      apply list_elem_of_fmap in Hb as (r & -> & Hr).
      pose proof Hv as Hv'. rewrite Hrank in Hv'.
      apply rankings_origin in Hv' as (p & k & it & Hp & -> & -> & _).
      assert (Z.of_nat p ∈ gp_id <$> grid_points rep) as Hpt
        by (rewrite Hgrid; apply elem_of_range; lia).
      apply list_elem_of_fmap in Hpt as (gp & Hgp & Hin).
      exists (ScriptStore.mkInsert aid (biz_id r) (biz_title r) (biz_address r)
                (biz_rating r) (biz_reviews r) (gp_id gp) (gp_lat gp) (gp_lon gp)
                (Z.of_nat k + 1)).
      split; [|by rewrite <- Hgp].
      apply elem_of_ranking_inserts. exists r, gp, (Z.of_nat k + 1).
      rewrite <- Hgp. split_and!; try done. lia.
    + intros (row & (r & gp & v' & _ & _ & Hv' & _ & ->)%elem_of_ranking_inserts
                & <- & <- & <-). done.
  - intros row (r & gp & v & Hr & Hgp & _ & _ & ->)%elem_of_ranking_inserts.
    split; [done|]. by exists r, gp.
Qed.
End ScriptRows.

Lemma save_to_mysql_rows_witness :
  ∃ row, row ∈ ScriptStore.ranking_inserts "run" mixed_report ∧
         ScriptStore.business_id row = "B" ∧
         ScriptStore.grid_point_id row = 1 ∧
         ScriptStore.ranking_position row = 1.
Proof.
  destruct (save_to_mysql_rows mixed_api q0 q0 "cafe" 2 q1 mixed_trace mixed_report
              "run" mixed_run_completes) as [Hrows _].
  exact (proj1 (Hrows "B" 1 1) mixed_rank_B_1).
Defined.

Section ScriptRowKeys.
Context {F : Type} `{!FloatOps F}.
Implicit Types (api : nat → fetch_outcome F) (rep : report F).

Lemma point_inserts_NoDup aid (r : Business F) ranks (gps : list (GridPoint F)) :
  NoDup (gp_id <$> gps) →
  NoDup (ScriptStore.grid_point_id <$> omap (ScriptStore.point_insert aid r ranks) gps) ∧
  ∀ pt, pt ∈ ScriptStore.grid_point_id <$> omap (ScriptStore.point_insert aid r ranks) gps →
        pt ∈ gp_id <$> gps.
Proof.
  induction gps as [|gp gps IH]; simpl.
  - intros _. split; [constructor|done].
  - intros [Hgp Hgps]%NoDup_cons.
    destruct (IH Hgps) as [IHn IHs].
    destruct (ScriptStore.point_insert aid r ranks gp) as [row|] eqn:Hrow; simpl.
    + assert (ScriptStore.grid_point_id row = gp_id gp) as Hid.
      { unfold ScriptStore.point_insert in Hrow.
        destruct (ranks !! gp_id gp); [|done]. case_decide; [done|].
        by injection Hrow as <-. }
      rewrite Hid. split.
      * apply NoDup_cons. split; [|done]. intros Hin. by apply Hgp, IHs.
      * intros pt [-> | Hin]%elem_of_cons; [left | right; by apply IHs].
    + split; [done|]. intros pt Hin. right. by apply IHs.
Qed.

Lemma business_inserts_id aid rep (r : Business F) row :
  row ∈ ScriptStore.business_inserts aid rep r → ScriptStore.business_id row = biz_id r.
Proof.
  unfold ScriptStore.business_inserts. rewrite list_elem_of_omap.
  intros (gp & _ & Hrow). unfold ScriptStore.point_insert in Hrow.
  destruct (_ !! gp_id gp); [|done]. case_decide; [done|]. by injection Hrow as <-.
Qed.

Lemma ranking_inserts_NoDup aid rep :
  NoDup (biz_id <$> businesses rep) → NoDup (gp_id <$> grid_points rep) →
  NoDup ((λ row : @ScriptStore.ranking_insert F,
            (ScriptStore.business_id row, ScriptStore.grid_point_id row))
           <$> ScriptStore.ranking_inserts aid rep).
Proof.
  unfold ScriptStore.ranking_inserts. intros Hbiz Hgrid.
  induction (businesses rep) as [|r rs IH]; simpl; [constructor|].
  rewrite fmap_cons in Hbiz. apply NoDup_cons in Hbiz as [Hr Hrs].
  rewrite fmap_app. apply NoDup_app. split_and!.
  - apply (NoDup_fmap_1 snd). rewrite <- list_fmap_compose.
    unfold ScriptStore.business_inserts. by apply point_inserts_NoDup.
  - intros [b pt] (row & [= -> ->] & Hrow)%list_elem_of_fmap
      (row' & [= Hb _] & Hrow')%list_elem_of_fmap.
    apply business_inserts_id in Hrow. rewrite Hrow in Hb.
    apply list_elem_of_In, in_flat_map in Hrow' as (r' & Hr' & Hrow').
    apply list_elem_of_In, business_inserts_id in Hrow'.
    apply Hr, list_elem_of_fmap. exists r'. split; [congruence|].
    by apply list_elem_of_In.
  - by apply IH.
Qed.

(** X12.  After a completed run of the script, [save_to_mysql] inserts at
    most one row for a business and a grid point: no two rows share both
    their business id and their grid point id, whatever the provider
    returned. *)
Theorem save_to_mysql_one_row_per_pair api (center_lat center_lon : F) keyword n
    (distance_km : F) tr rep aid :
  Script.generate_analysis api center_lat center_lon keyword n distance_km
    = (tr, inr rep) →
  NoDup ((λ row : @ScriptStore.ranking_insert F,
            (ScriptStore.business_id row, ScriptStore.grid_point_id row))
           <$> ScriptStore.ranking_inserts aid rep).
Proof.
  intros Hrun.
  pose proof (completed_run_grid api EmptyString _ _ _ _ _ _ _ (or_introl Hrun)) as Hgrid.
  destruct (completed_run api EmptyString _ _ _ _ _ _ _ (or_introl Hrun))
    as (_ & _ & reg & Hreg & Hbiz).
  apply ranking_inserts_NoDup.
  - by eapply report_NoDup.
  - rewrite Hgrid. unfold range. apply NoDup_fmap; [apply _|]. apply NoDup_seq.
Qed.
End ScriptRowKeys.

Lemma save_to_mysql_one_row_per_pair_witness :
  NoDup ((λ row : @ScriptStore.ranking_insert Q,
            (ScriptStore.business_id row, ScriptStore.grid_point_id row))
           <$> ScriptStore.ranking_inserts "run" duplicate_report).
Proof.
  exact (save_to_mysql_one_row_per_pair duplicate_api q0 q0 "cafe" 1 q1
           duplicate_trace duplicate_report "run" duplicate_run_completes).
Defined.

Lemma string_app_cons c (s t : string) : String c s +:+ t = String c (s +:+ t).
Proof. reflexivity. Qed.

Lemma string_app_assoc (s1 s2 s3 : string) : (s1 +:+ s2) +:+ s3 = s1 +:+ s2 +:+ s3.
Proof.
  induction s1 as [|c s1 IH]; [done|]. by rewrite !string_app_cons, IH.
Qed.

Lemma str_split_nonempty sep s : ∃ piece pieces, str_split sep s = piece :: pieces.
Proof.
  induction s as [|c s IH]; simpl; [by eexists _, _|].
  destruct (Ascii.eqb c sep); [by eexists _, _|].
  destruct IH as (piece & pieces & ->). by eexists _, _.
Qed.

Lemma str_split_second sep s : is_Some (str_split sep s !! 1%nat) ↔ sep ∈ chars s.
Proof.
  induction s as [|c s IH]; unfold chars in *; simpl.
  - split; [by intros [? ?]|by intros ?%elem_of_nil].
  - destruct (Ascii.eqb_spec c sep) as [->|Hc].
    + simpl. destruct (str_split_nonempty sep s) as (piece & pieces & ->).
      split; [intros _; left|by eexists].
    + rewrite elem_of_cons, <- IH.
      destruct (str_split_nonempty sep s) as (piece & pieces & ->). simpl.
      split; [by right|]. by intros [? | ?].
Qed.

Lemma str_split_app sep s t :
  sep ∉ chars s → str_split sep (s +:+ String sep t) = s :: str_split sep t.
Proof.
  induction s as [|c s IH]; unfold chars in *.
  - intros _. change ("" +:+ String sep t) with (String sep t). simpl.
    by rewrite Ascii.eqb_refl.
  - rewrite string_app_cons. simpl. rewrite not_elem_of_cons. intros [Hc Hs].
    destruct (Ascii.eqb_spec c sep) as [->|_]; [done|]. by rewrite (IH Hs).
Qed.

Lemma str_split_whole sep s : sep ∉ chars s → str_split sep s = [s].
Proof.
  induction s as [|c s IH]; unfold chars in *; simpl; [done|].
  rewrite not_elem_of_cons. intros [Hc Hs].
  destruct (Ascii.eqb_spec c sep) as [->|_]; [done|]. by rewrite (IH Hs).
Qed.

(** X13.  The address of the viewer pages exists exactly when the
    repository name contains a slash: [GITHUB_REPO.split('/')[1]] raises
    [IndexError] while the module is loaded for a name without one, and
    for no other name. *)
Theorem pages_url_defined_iff GITHUB_REPO :
  is_Some (ScriptUrls.GITHUB_PAGES_URL GITHUB_REPO) ↔ slash ∈ chars GITHUB_REPO.
Proof.
  unfold ScriptUrls.GITHUB_PAGES_URL. rewrite <- str_split_second.
  destruct (str_split_nonempty slash GITHUB_REPO) as (piece & pieces & ->). simpl.
  destruct pieces; simpl; split; intros [? ?]; done || by eexists.
Qed.

(** X14.  For a repository name [owner/name] the pages address is
    [https://owner.github.io/name]; whatever follows a second slash is
    dropped, so [owner/name/rest] gives the same address. *)
Theorem pages_url_owner_name owner name rest :
  slash ∉ chars owner → slash ∉ chars name →
  ScriptUrls.GITHUB_PAGES_URL (owner +:+ "/" +:+ name)
    = Some ("https://" +:+ owner +:+ ".github.io/" +:+ name) ∧
  ScriptUrls.GITHUB_PAGES_URL (owner +:+ "/" +:+ name +:+ "/" +:+ rest)
    = Some ("https://" +:+ owner +:+ ".github.io/" +:+ name).
Proof.
  intros Howner Hname. unfold ScriptUrls.GITHUB_PAGES_URL. split.
  - change ("/" +:+ name) with (String slash name).
    by rewrite (str_split_app _ _ _ Howner), (str_split_whole _ _ Hname).
  - change ("/" +:+ name +:+ "/" +:+ rest) with (String slash (name +:+ String slash rest)).
    by rewrite (str_split_app _ _ _ Howner), (str_split_app _ _ _ Hname).
Qed.

Lemma pages_url_owner_name_witness :
  ScriptUrls.GITHUB_PAGES_URL default_repo
    = Some "https://lvoigt1965.github.io/gbp-ranking-map" ∧
  ScriptUrls.GITHUB_PAGES_URL (default_repo +:+ "/tree/main")
    = Some "https://lvoigt1965.github.io/gbp-ranking-map".
Proof.
  apply (pages_url_owner_name "lvoigt1965" "gbp-ranking-map" "tree/main");
    apply (bool_decide_unpack (_ ∉ _)); by vm_compute.
Defined.

(** X15.  For a repository name [owner/name] the shareable address the
    script prints is the one [get_viewer_url] of the class returns when
    its base address is the pages address followed by a slash, as it is
    with both defaults. *)
Theorem viewer_urls_agree owner name analysis_id :
  slash ∉ chars owner → slash ∉ chars name →
  ∃ pages_url,
    ScriptUrls.GITHUB_PAGES_URL (owner +:+ "/" +:+ name) = Some pages_url ∧
    ScriptUrls.viewer_url pages_url analysis_id
      = GeneratorUrls.get_viewer_url (pages_url +:+ "/") analysis_id.
Proof.
  intros Howner Hname. eexists. split.
  - unfold ScriptUrls.GITHUB_PAGES_URL.
    change ("/" +:+ name) with (String slash name).
    by rewrite (str_split_app _ _ _ Howner), (str_split_whole _ _ Hname).
  - unfold ScriptUrls.viewer_url, GeneratorUrls.get_viewer_url.
    rewrite (string_app_assoc _ "/" ("?data=" +:+ analysis_id)). reflexivity.
Qed.

Lemma viewer_urls_agree_witness :
  ∃ pages_url,
    ScriptUrls.GITHUB_PAGES_URL default_repo = Some pages_url ∧
    ScriptUrls.viewer_url pages_url "7c9e6679"
      = GeneratorUrls.get_viewer_url default_base_url "7c9e6679".
Proof.
  destruct (viewer_urls_agree "lvoigt1965" "gbp-ranking-map" "7c9e6679")
    as (pages_url & Hpages & Hviewer);
    [apply (bool_decide_unpack (_ ∉ _)); by vm_compute..|].
  exists pages_url. split; [exact Hpages|].
  rewrite Hviewer. vm_compute in Hpages. injection Hpages as <-. reflexivity.
Defined.

(** X16.  Both files publish a report at the same place: for every
    repository name and analysis id, [push_to_github] of the script and of
    the class write to the same address of the hosting service and return
    the same raw address. *)
Theorem publish_urls_agree github_repo analysis_id :
  ScriptUrls.push_url github_repo analysis_id
    = GeneratorUrls.push_url github_repo (GeneratorUrls.json_filename analysis_id) ∧
  ScriptUrls.raw_url github_repo analysis_id
    = GeneratorUrls.raw_url github_repo (GeneratorUrls.json_filename analysis_id).
Proof. split; reflexivity. Qed.
